(** * Anki AI agent: the add-card tool, the AnkiConnect client and the
      deck-configuration storage

    A shallow embedding of
      - [src/storage.ts]      (deck configurations kept in LocalStorage),
      - [src/ankiConnect.ts]  (the JSON client of the AnkiConnect plugin),
      - [src/tools/add-card.ts] (the tool the assistant calls to add a card),
    followed by the properties of the card-submission workflow. *)

From Stdlib Require Import String Ascii List Bool Arith NArith ZArith QArith Lia.
Import ListNotations.

Local Open Scope string_scope.
Local Open Scope list_scope.

(** ** JavaScript values used by the code *)

Module Js.

(** Every number this code handles is decoded from JSON (the tool input,
    the stored configurations, the replies of AnkiConnect), so it is a
    finite double: an exact rational.  [===] and [<=] on such numbers are
    the comparisons of [Q]. *)
Definition number : Type := Q.

Definition strictEq (a b : number) : bool := Qeq_bool a b.
Definition leq (a b : number) : bool := Qle_bool a b.

(** A string of the language is its sequence of UTF-16 code units, each a
    number below 65536; no definition depends on that bound.  [lit] is the
    string of a literal written in ASCII. *)
Definition text : Type := list N.

Definition lit (s : string) : text :=
  map N_of_ascii (list_ascii_of_string s).

(** What a JSON-decoded property can hold at run time; the tool tests
    [typeof input.deckId], so the input is not trusted to be a number. *)
Inductive value : Type :=
| Undefined
| Null
| Boolean (b : bool)
| Number (n : number)
| Str (s : text)
| Object.

(** [typeof v === "number"] *)
Definition isNumber (v : value) : bool :=
  match v with Number _ => true | _ => false end.

(** [n === v] for a number [n] and an arbitrary value [v]: strict equality
    never converts, a number equals only a number. *)
Definition strictEqValue (n : number) (v : value) : bool :=
  match v with Number m => strictEq n m | _ => false end.

(** [v <= n] where [v] is known to be a number: the tool evaluates it only
    to the right of [typeof v !== "number" ||]. *)
Definition leqValue (v : value) (n : number) : bool :=
  match v with Number m => leq m n | _ => false end.

(** [LF] is the line feed the source writes ["\n"], [DQ] the double quote,
    [comma] the code unit of the separator of [split(",")]. *)
Definition LF : text := [10%N].
Definition DQ : text := [34%N].
Definition comma : N := 44%N.

(** [s === t] on strings: the same code units. *)
Fixpoint eqb (s t : text) : bool :=
  match s, t with
  | [], [] => true
  | a :: s', b :: t' => N.eqb a b && eqb s' t'
  | _, _ => false
  end.

(** [!s] on a string: only the empty string is falsy. *)
Definition isEmpty (s : text) : bool :=
  match s with [] => true | _ :: _ => false end.

(** The code points [String.prototype.trim] removes, WhiteSpace and
    LineTerminator of ECMAScript: TAB, LF, VT, FF, CR, SPACE, NO-BREAK
    SPACE U+00A0, U+1680, U+2000 to U+200A, LINE SEPARATOR U+2028,
    PARAGRAPH SEPARATOR U+2029, U+202F, U+205F, U+3000 and the byte order
    mark U+FEFF.  Each is one code unit. *)
Definition isWhiteSpace (u : N) : bool :=
  (((9 <=? u) && (u <=? 13))
   || (u =? 32) || (u =? 160) || (u =? 5760)
   || ((8192 <=? u) && (u <=? 8202))
   || (u =? 8232) || (u =? 8233) || (u =? 8239) || (u =? 8287)
   || (u =? 12288) || (u =? 65279))%N.

Fixpoint trimStart (s : text) : text :=
  match s with
  | [] => []
  | c :: r => if isWhiteSpace c then trimStart r else s
  end.

Fixpoint trimEnd (s : text) : text :=
  match s with
  | [] => []
  | c :: r =>
      let r' := trimEnd r in
      if isWhiteSpace c && isEmpty r' then [] else c :: r'
  end.

(** [s.trim()] *)
Definition trim (s : text) : text := trimEnd (trimStart s).

(** [s.split(sep)] for a separator of one code unit; the result is never
    empty (["".split(",")] is [[""]]). *)
Fixpoint split (sep : N) (s : text) : list text :=
  match s with
  | [] => [[]]
  | c :: r =>
      if N.eqb c sep then [] :: split sep r
      else match split sep r with
           | h :: t => (c :: h) :: t
           | [] => [[c]]
           end
  end.

(** [l.join(sep)] *)
Fixpoint join (sep : text) (l : list text) : text :=
  match l with
  | [] => []
  | x :: rest =>
      match rest with
      | [] => x
      | _ :: _ => x ++ sep ++ join sep rest
      end
  end.

(** [Object.entries(o)]: objects used as string-keyed records keep the
    insertion order of their keys, so they are association lists. *)
Definition record (V : Type) : Type := list (text * V).

End Js.

(** ** storage.ts *)

Module Storage.
Import Js.

(** [noteType: "Basic" | "Basic (and reversed card)"] *)
Inductive NoteType : Type := Basic | BasicAndReversed.

Definition noteTypeName (t : NoteType) : text :=
  match t with
  | Basic => lit "Basic"
  | BasicAndReversed => lit "Basic (and reversed card)"
  end.

Record DeckConfiguration : Type := mkDeckConfiguration {
  deckId : number;
  deckName : text;
  purpose : text;
  noteType : NoteType;
  frontTemplate : text;
  backTemplate : text;
  frontExample : text;
  backExample : text
}.

(** The slot [DECK_CONFIGURATIONS_KEY] of LocalStorage.  The slot holds
    JSON text, written by [saveDeckConfigurations] only;
    [JSON.parse (JSON.stringify l)] gives [l] back for a list of
    configurations, so the slot is modelled by the decoded list, and
    [None] is the slot never written. *)
Definition LocalStorage : Type := option (list DeckConfiguration).

Definition getDeckConfigurations (ls : LocalStorage) : list DeckConfiguration :=
  match ls with
  | None => []
  | Some configurations => configurations
  end.

Definition saveDeckConfigurations (configurations : list DeckConfiguration)
    (ls : LocalStorage) : LocalStorage :=
  Some configurations.

(** [filtered.push(configuration)] appends at the end. *)
Definition addDeckConfiguration (configuration : DeckConfiguration)
    (ls : LocalStorage) : LocalStorage :=
  let configurations := getDeckConfigurations ls in
  let filtered :=
    filter (fun c => negb (strictEq (deckId c) (deckId configuration)))
           configurations in
  saveDeckConfigurations (filtered ++ [configuration]) ls.

Definition removeDeckConfiguration (id : number) (ls : LocalStorage)
    : LocalStorage :=
  let configurations := getDeckConfigurations ls in
  let filtered :=
    filter (fun c => negb (strictEq (deckId c) id)) configurations in
  saveDeckConfigurations filtered ls.

Definition isDeckConfigured (id : number) (ls : LocalStorage) : bool :=
  existsb (fun c => strictEq (deckId c) id) (getDeckConfigurations ls).

(** The stored presets of one deck id. *)
Definition presetsOf (id : number) (ls : LocalStorage) : list DeckConfiguration :=
  filter (fun c => strictEq (deckId c) id) (getDeckConfigurations ls).

(** The invariant of the stored set: at most one preset per deck id. *)
Definition invariant (ls : LocalStorage) : Prop :=
  forall id, (length (presetsOf id ls) <= 1)%nat.

End Storage.

(** ** Effects: a state and exception monad

    The asynchronous functions of the source run one after the other
    ([await] at every call), read LocalStorage, talk to AnkiConnect and may
    throw.  A computation takes the world, and gives back the world with
    either the [message] of the thrown [Error] or a value.  The world is
    kept when an exception is thrown: what was sent stays sent. *)

Module Effect.

Definition Error : Type := Js.text.

Section Monad.
Variable W : Type.

Definition M (A : Type) : Type := W -> (Error + A) * W.

Definition ret {A : Type} (a : A) : M A := fun w => (inr a, w).

Definition throw {A : Type} (e : Error) : M A := fun w => (inl e, w).

Definition bind {A B : Type} (m : M A) (k : A -> M B) : M B :=
  fun w =>
    match m w with
    | (inr a, w') => k a w'
    | (inl e, w') => (inl e, w')
    end.

(** [try { m } catch (error) { h error }] *)
Definition tryCatch {A : Type} (m : M A) (h : Error -> M A) : M A :=
  fun w =>
    match m w with
    | (inr a, w') => (inr a, w')
    | (inl e, w') => h e w'
    end.
End Monad.

Arguments ret {W A} a.
Arguments throw {W A} e.
Arguments bind {W A B} m k.
Arguments tryCatch {W A} m h.

Declare Scope effect_scope.
Delimit Scope effect_scope with effect.
Notation "x <- m ;; k" := (bind m (fun x => k))
  (at level 61, m at next level, right associativity) : effect_scope.
Notation "m ;; k" := (bind m (fun _ => k))
  (at level 61, right associativity) : effect_scope.

End Effect.

(** ** ankiConnect.ts *)

Module AnkiConnect.
Import Js Effect.
Local Open Scope effect_scope.

(** The [note] object of an [addNote] request. *)
Record Note : Type := mkNote {
  note_deckName : text;
  note_modelName : text;
  note_fields : record text;
  note_tags : list text;
  note_allowDuplicate : bool
}.

Record FieldInfo : Type := mkFieldInfo { value : text; order : number }.

(** An element of the result of [notesInfo]. *)
Record NoteInfo : Type := mkNoteInfo {
  noteId : number;
  modelName : text;
  tags : list text;
  fields : record FieldInfo
}.

(** A request [{action, version: 6, params}], one constructor per action
    the client sends, carrying its [params]. *)
Inductive Action : Type :=
| Version
| DeckNamesAndIds
| AddNote (note : Note)
| FindNotes (query : text)
| NotesInfo (notes : list number)
| UpdateNoteFields (id : number) (fields : record text)
| ModelNames
| ModelFieldNames (modelName : text).

Definition actionName (a : Action) : text :=
  match a with
  | Version => lit "version"
  | DeckNamesAndIds => lit "deckNamesAndIds"
  | AddNote _ => lit "addNote"
  | FindNotes _ => lit "findNotes"
  | NotesInfo _ => lit "notesInfo"
  | UpdateNoteFields _ _ => lit "updateNoteFields"
  | ModelNames => lit "modelNames"
  | ModelFieldNames _ => lit "modelFieldNames"
  end.

(** The type [T] at which each caller instantiates
    [invokeAnkiConnect<T>]. *)
Definition Result (a : Action) : Type :=
  match a with
  | Version => number
  | DeckNamesAndIds => record number
  | AddNote _ => number
  | FindNotes _ => list number
  | NotesInfo _ => list NoteInfo
  | UpdateNoteFields _ _ => unit
  | ModelNames => list text
  | ModelFieldNames _ => list text
  end.

(** [interface AnkiConnectResponse<T> { result: T | null; error: string | null }] *)
Record AnkiConnectResponse (T : Type) : Type := mkResponse {
  result : option T;
  error : option text
}.
Arguments mkResponse {T} result error.
Arguments result {T} _.
Arguments error {T} _.

(** What [fetch] gives for a request: the promise rejects (no listener on
    the port), or a response arrives with its [ok] flag, its [statusText]
    and the outcome of [response.json()], which throws on a body that is
    not JSON. *)
Inductive Reply (T : Type) : Type :=
| Unreachable (message : text)
| Responded (ok : bool) (statusText : text)
            (json : Error + AnkiConnectResponse T).
Arguments Unreachable {T} message.
Arguments Responded {T} ok statusText json.

(** The peer application: its reply to each request.  Within one run of
    the tool every action is sent at most once, so a function of the
    request covers a peer whose answers change over time. *)
Definition Peer : Type := forall a : Action, Reply (Result a).

(** LocalStorage and the requests sent so far, oldest first. *)
Record World : Type := mkWorld {
  localStorage : Storage.LocalStorage;
  sent : list Action
}.

Definition send (a : Action) : M World unit :=
  fun w => (inr tt, mkWorld (localStorage w) (sent w ++ [a])).

Section Client.
Variable peer : Peer.

Definition invokeAnkiConnect (a : Action) : M World (Result a) :=
  send a ;;
  match peer a with
  | Unreachable message => throw message
  | Responded ok statusText json =>
      if negb ok then
        throw (lit "AnkiConnect request failed: " ++ statusText)
      else
        match json with
        | inl e => throw e
        | inr data =>
            match error data with
            | Some ((_ :: _) as e) => throw e
            | _ =>
                match result data with
                | None => throw (lit "AnkiConnect returned null result")
                | Some r => ret r
                end
            end
        end
  end.

Definition checkAnkiConnection : M World bool :=
  tryCatch (invokeAnkiConnect Version ;; ret true)
           (fun _ => ret false).

Definition getDeckNamesAndIds : M World (record number) :=
  invokeAnkiConnect DeckNamesAndIds.

(** [tags: params.tags || []]: an array is truthy, only a missing
    [tags] gives the empty list. *)
Definition addNote (deckName modelName : text) (fields : record text)
    (tags : option (list text)) : M World number :=
  invokeAnkiConnect
    (AddNote (mkNote deckName modelName fields
                     (match tags with Some t => t | None => [] end)
                     false)).

Definition findNotes (query : text) : M World (list number) :=
  invokeAnkiConnect (FindNotes query).

Definition notesInfo (noteIds : list number) : M World (list NoteInfo) :=
  invokeAnkiConnect (NotesInfo noteIds).

Definition updateNoteFields (noteId : number) (fields : record text)
    : M World unit :=
  invokeAnkiConnect (UpdateNoteFields noteId fields) ;; ret tt.

Definition getModelNames : M World (list text) :=
  invokeAnkiConnect ModelNames.

Definition getModelFieldNames (modelName : text) : M World (list text) :=
  invokeAnkiConnect (ModelFieldNames modelName).
End Client.

(** What a call of [invokeAnkiConnect] makes of the reply it gets: the
    value it returns, or the message of the [Error] it throws. *)
Definition received {T : Type} (reply : Reply T) : Error + T :=
  match reply with
  | Unreachable message => inl message
  | Responded false statusText _ =>
      inl (lit "AnkiConnect request failed: " ++ statusText)
  | Responded true _ (inl e) => inl e
  | Responded true _ (inr data) =>
      match error data, result data with
      | Some (c :: e), _ => inl (c :: e)
      | _, None => inl (lit "AnkiConnect returned null result")
      | _, Some r => inr r
      end
  end.

(** Reading the stored configurations from inside a computation. *)
Definition getDeckConfigurations : M World (list Storage.DeckConfiguration) :=
  fun w => (inr (Storage.getDeckConfigurations (localStorage w)), w).

(** Requests that change the collection of the peer. *)
Definition isCreate (a : Action) : bool :=
  match a with AddNote _ => true | _ => false end.
Definition isUpdate (a : Action) : bool :=
  match a with UpdateNoteFields _ _ => true | _ => false end.
Definition isWrite (a : Action) : bool := isCreate a || isUpdate a.

(** Search requests. *)
Definition isSearch (a : Action) : bool :=
  match a with FindNotes _ => true | _ => false end.

End AnkiConnect.

(** ** tools/add-card.ts *)

Module AddCard.
Import Js Effect.
Local Open Scope effect_scope.

(** [type Input].  [deckId] is declared a number and checked at run time,
    [tags] is optional. *)
Record Input : Type := mkInput {
  deckId : value;
  Front : text;
  Back : text;
  tags : option text
}.

(** The tool answers with a message; each constructor is one of the
    [return] statements of [tool] and carries the values its template
    interpolates. *)
Inductive Outcome : Type :=
| InvalidDeckId
| FrontRequired
| BackRequired
| CannotConnect
| NoDeckConfigurations
| DeckNotConfigured (id : value)
| DuplicatesFound (count : nat) (existingCards : list (number * record text))
| CardCreated (deckName noteType : text) (noteId : number)
              (fields : record text) (tags : list text)
| CreateFailed (errorMessage noteType deckName : text).

(** [html.replace(/^<p>|<\/p>\n?$/g, "")].  The pattern has no [m] flag:
    [^] is the start and [$] the end of the whole string.  The search
    goes left to right.  At index 0 the first alternative removes a
    leading [<p>]; at every index the second alternative removes the
    rest of the string when that rest is [</p>] or [</p>] and a line
    feed; any other character is kept. *)
Fixpoint replaceClosing (s : text) : text :=
  if eqb s (lit "</p>" ++ LF) || eqb s (lit "</p>") then []
  else match s with
       | [] => []
       | c :: r => c :: replaceClosing r
       end.

(** What follows the prefix [p] in [s], when [s] begins with [p]. *)
Fixpoint afterPrefix (p s : text) : option text :=
  match p, s with
  | [], _ => Some s
  | a :: p', b :: s' => if N.eqb a b then afterPrefix p' s' else None
  | _ :: _, [] => None
  end.

Definition replaceWrapping (html : text) : text :=
  match afterPrefix (lit "<p>") html with
  | Some r => replaceClosing r
  | None => replaceClosing html
  end.

Section Tool.
(** [md.render] of the markdown-it instance built with
    [{html: false, breaks: true, linkify: false}]; the library is not
    part of this repository. *)
Variable md_render : text -> text.
Variable peer : AnkiConnect.Peer.

Definition markdownToAnkiHtml (markdown : text) : text :=
  let html := md_render markdown in
  trim (replaceWrapping html).

(** [input.tags ? input.tags.split(",").map((t) => t.trim()) : []] *)
Definition parseTags (t : option text) : list text :=
  match t with
  | Some ((_ :: _) as s) => map trim (split comma s)
  | _ => []
  end.

(** The block [// Check for duplicates]: [Some] of the message when the
    block returns from the tool, [None] when control goes on to the
    creation, also after any exception thrown inside the [try]. *)
Definition checkDuplicates (deckConfiguration : Storage.DeckConfiguration)
    (input : Input) : M AnkiConnect.World (option Outcome) :=
  tryCatch
    (duplicateIds <-
       AnkiConnect.findNotes peer
         (lit "deck:" ++ DQ ++ Storage.deckName deckConfiguration ++ DQ
          ++ lit " " ++ Front input) ;;
     if (0 <? length duplicateIds)%nat then
       duplicateInfo <- AnkiConnect.notesInfo peer duplicateIds ;;
       let existingCards :=
         map (fun note =>
                (AnkiConnect.noteId note,
                 map (fun kv => (fst kv, AnkiConnect.value (snd kv)))
                     (AnkiConnect.fields note)))
             duplicateInfo in
       ret (Some (DuplicatesFound (length duplicateIds) existingCards))
     else ret None)
    (fun _ => ret None).

(** The block [// Create the card using deck's configured note type]. *)
Definition createCard (deckConfiguration : Storage.DeckConfiguration)
    (fields : record text) (tags : list text)
    : M AnkiConnect.World Outcome :=
  let deckName := Storage.deckName deckConfiguration in
  let noteType := Storage.noteTypeName (Storage.noteType deckConfiguration) in
  tryCatch
    (noteId <- AnkiConnect.addNote peer deckName noteType fields (Some tags) ;;
     ret (CardCreated deckName noteType noteId fields tags))
    (fun errorMessage => ret (CreateFailed errorMessage noteType deckName)).

Definition tool (input : Input) : M AnkiConnect.World Outcome :=
  if negb (isNumber (deckId input)) || leqValue (deckId input) 0
  then ret InvalidDeckId
  else if isEmpty (Front input) || eqb (trim (Front input)) []
  then ret FrontRequired
  else if isEmpty (Back input) || eqb (trim (Back input)) []
  then ret BackRequired
  else
    ankiConnected <- AnkiConnect.checkAnkiConnection peer ;;
    if negb ankiConnected then ret CannotConnect
    else
      configurations <- AnkiConnect.getDeckConfigurations ;;
      if (length configurations =? 0)%nat then ret NoDeckConfigurations
      else
        match find (fun c => strictEqValue (Storage.deckId c) (deckId input))
                   configurations with
        | None => ret (DeckNotConfigured (deckId input))
        | Some deckConfiguration =>
            let fields :=
              [(lit "Front", markdownToAnkiHtml (Front input));
               (lit "Back", markdownToAnkiHtml (Back input))] in
            let tags := parseTags (tags input) in
            duplicates <- checkDuplicates deckConfiguration input ;;
            match duplicates with
            | Some warning => ret warning
            | None => createCard deckConfiguration fields tags
            end
        end.

(** Raycast shows the prompt built by [confirmation] and calls [tool]
    once the user has approved it; a refusal never reaches [tool]. *)

(** One invocation: the tool started on a given LocalStorage with
    nothing sent yet. *)
Definition start (ls : Storage.LocalStorage) : AnkiConnect.World :=
  AnkiConnect.mkWorld ls [].

Definition outcome (input : Input) (ls : Storage.LocalStorage)
    : Error + Outcome :=
  fst (tool input (start ls)).

Definition requests (input : Input) (ls : Storage.LocalStorage)
    : list AnkiConnect.Action :=
  AnkiConnect.sent (snd (tool input (start ls))).
End Tool.

End AddCard.

(** ** Vocabulary of the workflow properties *)

Module Workflow.
Import Js Effect.

(** The search text of the duplicate check,
    [`deck:"${deckConfiguration.deckName}" ${input.Front}`]. *)
Definition duplicateQuery (c : Storage.DeckConfiguration)
    (input : AddCard.Input) : text :=
  (lit "deck:" ++ DQ ++ Storage.deckName c ++ DQ ++ lit " " ++ AddCard.Front input).

(** The field map built from an input. *)
Definition cardFields (md_render : text -> text) (input : AddCard.Input)
    : record text :=
  [(lit "Front", AddCard.markdownToAnkiHtml md_render (AddCard.Front input));
   (lit "Back", AddCard.markdownToAnkiHtml md_render (AddCard.Back input))].

(** The note of the create request for an input and its preset. *)
Definition newNote (md_render : text -> text)
    (c : Storage.DeckConfiguration) (input : AddCard.Input) : AnkiConnect.Note :=
  AnkiConnect.mkNote (Storage.deckName c)
                     (Storage.noteTypeName (Storage.noteType c))
                     (cardFields md_render input)
                     (AddCard.parseTags (AddCard.tags input))
                     false.

(** The answer of the creation step, from the reply of the peer to the
    create request. *)
Definition committed (md_render : text -> text) (peer : AnkiConnect.Peer)
    (c : Storage.DeckConfiguration) (input : AddCard.Input) : AddCard.Outcome :=
  let note := newNote md_render c input in
  match AnkiConnect.received (peer (AnkiConnect.AddNote note)) with
  | inr noteId =>
      AddCard.CardCreated (AnkiConnect.note_deckName note)
                          (AnkiConnect.note_modelName note) noteId
                          (AnkiConnect.note_fields note)
                          (AnkiConnect.note_tags note)
  | inl errorMessage =>
      AddCard.CreateFailed errorMessage (AnkiConnect.note_modelName note)
                           (AnkiConnect.note_deckName note)
  end.

(** Ids and field values of the candidates, as the warning lists them. *)
Definition candidates (infos : list AnkiConnect.NoteInfo)
    : list (number * record text) :=
  map (fun note =>
         (AnkiConnect.noteId note,
          map (fun kv => (fst kv, AnkiConnect.value (snd kv)))
              (AnkiConnect.fields note)))
      infos.

(** The world once the requests [l] have been sent as well. *)
Definition after (w : AnkiConnect.World) (l : list AnkiConnect.Action)
    : AnkiConnect.World :=
  AnkiConnect.mkWorld (AnkiConnect.localStorage w) (AnkiConnect.sent w ++ l).

(** The input passes the run-time validation: the deck id is a number
    above zero, front and back are not blank. *)
Definition validInput (input : AddCard.Input) : Prop :=
  (exists id, AddCard.deckId input = Number id /\ leq id 0 = false)
  /\ trim (AddCard.Front input) <> []
  /\ trim (AddCard.Back input) <> [].

(** The peer answers the liveness probe. *)
Definition connected (peer : AnkiConnect.Peer) : Prop :=
  exists v, AnkiConnect.received (peer AnkiConnect.Version) = inr v.

(** [c] is the stored preset the tool picks for the input: the first one
    whose deck id equals the requested id. *)
Definition resolves (ls : Storage.LocalStorage) (input : AddCard.Input)
    (c : Storage.DeckConfiguration) : Prop :=
  find (fun c' => strictEqValue (Storage.deckId c') (AddCard.deckId input))
       (Storage.getDeckConfigurations ls) = Some c.

(** No stored preset has the requested deck id. *)
Definition unconfigured (ls : Storage.LocalStorage) (input : AddCard.Input)
    : Prop :=
  forall c, In c (Storage.getDeckConfigurations ls) ->
            strictEqValue (Storage.deckId c) (AddCard.deckId input) = false.

(** The run gets as far as the duplicate check, with preset [c]. *)
Definition reachesDuplicateCheck (peer : AnkiConnect.Peer)
    (ls : Storage.LocalStorage) (input : AddCard.Input)
    (c : Storage.DeckConfiguration) : Prop :=
  validInput input /\ connected peer /\ resolves ls input c.

(** The search or the detail lookup of the duplicate check throws. *)
Definition duplicateCheckFails (peer : AnkiConnect.Peer)
    (c : Storage.DeckConfiguration) (input : AddCard.Input) : Prop :=
  (exists e,
      AnkiConnect.received (peer (AnkiConnect.FindNotes (duplicateQuery c input)))
      = inl e)
  \/ (exists ids e,
         AnkiConnect.received (peer (AnkiConnect.FindNotes (duplicateQuery c input)))
         = inr ids
         /\ ids <> []
         /\ AnkiConnect.received (peer (AnkiConnect.NotesInfo ids)) = inl e).

(** The same peer, except that every search finds nothing. *)
Definition findingNothing (peer : AnkiConnect.Peer) : AnkiConnect.Peer :=
  fun a =>
    match a as a0 return AnkiConnect.Reply (AnkiConnect.Result a0) with
    | AnkiConnect.FindNotes _ =>
        AnkiConnect.Responded true (lit "OK")
          (inr (AnkiConnect.mkResponse (Some []) None))
    | a0 => peer a0
    end.

(** A deck id that is a positive integer. *)
Definition isPositiveInteger (v : value) : Prop :=
  exists p : positive, exists n, v = Number n /\ (n == Z.pos p # 1)%Q.

(** A deck id the validation refuses: not a number, or at most zero. *)
Definition refusedDeckId (v : value) : Prop :=
  forall n, v = Number n -> (n <= 0)%Q.

End Workflow.

(** ** The scenario of the specification

    One preset for the deck "Spanish::Vocab" and the card "hablar" /
    "to speak", against peers that differ in what the duplicate check
    meets. *)

Module Scenario.
Import Js AnkiConnect.

(** Modelled from the spec: markdown-it is outside the repository.  The
    normalizer converts emphasis into the markup of the peer and has raw
    structural markup of the input disabled ([html: false]); this is what
    the renderer gives on the texts used below: emphasis becomes a
    [strong] element, a tag standing in the input is escaped, a line of
    plain text is wrapped in a paragraph. *)
Definition escapingRender (s : text) : text :=
  if eqb s (lit "**hablar**")
  then lit "<p><strong>hablar</strong></p>" ++ LF
  else if eqb s (lit "<strong>hablar</strong>")
  then lit "<p>&lt;strong&gt;hablar&lt;/strong&gt;</p>" ++ LF
  else lit "<p>" ++ s ++ lit "</p>" ++ LF.

(** What markdown-it renders for one line of plain text. *)
Definition plainParagraph (s : text) : text :=
  (lit "<p>" ++ s ++ lit "</p>" ++ LF).

Definition spanishVocab : Storage.DeckConfiguration :=
  Storage.mkDeckConfiguration 1 (lit "Spanish::Vocab") (lit "Spanish vocabulary")
    Storage.Basic (lit "word") (lit "meaning") (lit "hablar") (lit "to speak").

Definition configured : Storage.LocalStorage := Some [spanishVocab].

Definition hablar : AddCard.Input :=
  AddCard.mkInput (Number 1) (lit "hablar") (lit "to speak") None.

(** The same card sent with the deck id 1.5. *)
Definition hablarFractional : AddCard.Input :=
  AddCard.mkInput (Number (3 # 2)) (lit "hablar") (lit "to speak") None.

(** A card for a deck nobody configured. *)
Definition hablarElsewhere : AddCard.Input :=
  AddCard.mkInput (Number 2) (lit "hablar") (lit "to speak") None.

(** A card whose front is only white space: a space, the no-break space
    U+00A0 and the em space U+2003. *)
Definition blankFront : AddCard.Input :=
  AddCard.mkInput (Number 1) (lit " " ++ [160%N; 8195%N]) (lit "to speak") None.

Definition answer {T : Type} (r : T) : Reply T :=
  Responded true (lit "OK") (inr (mkResponse (Some r) None)).

Definition failure {T : Type} (message : text) : Reply T :=
  Responded true (lit "OK") (inr (mkResponse None (Some message))).

Definition existingNote : NoteInfo :=
  mkNoteInfo 1500 (lit "Basic") [] [(lit "Front", mkFieldInfo (lit "hablar") 0)].

(** Anki is not running. *)
Definition offline : Peer := fun a => Unreachable (lit "fetch failed").

(** The search finds nothing and the note is created. *)
Definition emptyCollection : Peer :=
  fun a =>
    match a as a0 return Reply (Result a0) with
    | Version => answer 6
    | FindNotes _ => answer []
    | AddNote _ => answer 1700
    | _ => Unreachable (lit "not used")
    end.

(** The search finds one note, whose details can be read. *)
Definition withDuplicate : Peer :=
  fun a =>
    match a as a0 return Reply (Result a0) with
    | Version => answer 6
    | FindNotes _ => answer [1500]
    | NotesInfo _ => answer [existingNote]
    | AddNote _ => answer 1700
    | _ => Unreachable (lit "not used")
    end.

(** The search finds one note, whose details cannot be read. *)
Definition brokenDetails : Peer :=
  fun a =>
    match a as a0 return Reply (Result a0) with
    | Version => answer 6
    | FindNotes _ => answer [1500]
    | NotesInfo _ => failure (lit "collection is not available")
    | AddNote _ => answer 1700
    | _ => Unreachable (lit "not used")
    end.

(** The search itself fails. *)
Definition brokenSearch : Peer :=
  fun a =>
    match a as a0 return Reply (Result a0) with
    | Version => answer 6
    | FindNotes _ => failure (lit "collection is not available")
    | AddNote _ => answer 1700
    | _ => Unreachable (lit "not used")
    end.

(** A peer that answers the probe with a result and an empty, non-null
    [error]. *)
Definition emptyError : Peer :=
  fun a =>
    match a as a0 return Reply (Result a0) with
    | Version => Responded true (lit "OK") (inr (mkResponse (Some 6) (Some [])))
    | _ => Unreachable (lit "not used")
    end.

End Scenario.

(** ** ankiConnect.ts: the list of decks *)

Module Decks.
Import Js Effect.
Local Open Scope effect_scope.

(** [interface DeckInfo { name: string; id: number }] *)
Record DeckInfo : Type := mkDeckInfo { name : text; id : number }.

(** [Object.entries(deckMap).map(([name, id]) => ({name, id}))]; the
    record lists its entries in the order [Object.entries] gives them. *)
Definition getDecks (peer : AnkiConnect.Peer) : M AnkiConnect.World (list DeckInfo) :=
  deckMap <- AnkiConnect.getDeckNamesAndIds peer ;;
  ret (map (fun entry => mkDeckInfo (fst entry) (snd entry)) deckMap).

End Decks.

(** ** tools/add-card.ts: the confirmation prompt *)

Module Prompt.
Import Js Effect.
Local Open Scope effect_scope.

Section Confirmation.
(** The conversion of the template literal [`Deck ID ${input.deckId}`],
    ToString of the language. *)
Variable toText : value -> text.

(** [confirmation]: the message and the [info] rows, each a [name] and
    its [value].  [tags.join(", ")] is [join]. *)
Definition confirmation (input : AddCard.Input)
    : M AnkiConnect.World (text * list (text * text)) :=
  configurations <- AnkiConnect.getDeckConfigurations ;;
  let deckConfiguration :=
    find (fun c => strictEqValue (Storage.deckId c) (AddCard.deckId input))
         configurations in
  let deckName :=
    match deckConfiguration with
    | Some c => Storage.deckName c
    | None => (lit "Deck ID " ++ toText (AddCard.deckId input))
    end in
  let noteType :=
    match deckConfiguration with
    | Some c => Storage.noteTypeName (Storage.noteType c)
    | None => lit "Unknown"
    end in
  let tags := AddCard.parseTags (AddCard.tags input) in
  let info :=
    [(lit "Deck", deckName); (lit "Note Type", noteType);
     (lit "Front", AddCard.Front input); (lit "Back", AddCard.Back input)] in
  let info :=
    if (0 <? length tags)%nat
    then info ++ [(lit "Tags", join (lit ", ") tags)]
    else info in
  ret (lit "Create this card in Anki?", info).
End Confirmation.

End Prompt.

(** ** tools/get-deck-configurations.ts *)

Module Discovery.
Import Js Effect.
Local Open Scope effect_scope.

(** The value handed to [JSON.stringify(_, null, 2)]; the tool returns its
    text. *)
#[local] Unset Elimination Schemes.
Inductive json : Type :=
| JNumber (n : number)
| JString (s : text)
| JArray (items : list json)
| JObject (members : list (text * json)).
#[local] Set Elimination Schemes.

Definition deckEntry (configuration : Storage.DeckConfiguration) : json :=
  JObject
    [(lit "deckId", JNumber (Storage.deckId configuration));
     (lit "deckName", JString (Storage.deckName configuration));
     (lit "purpose", JString (Storage.purpose configuration));
     (lit "noteType", JString (Storage.noteTypeName (Storage.noteType configuration)));
     (lit "frontTemplate", JString (Storage.frontTemplate configuration));
     (lit "frontExample", JString (Storage.frontExample configuration));
     (lit "backTemplate", JString (Storage.backTemplate configuration));
     (lit "backExample", JString (Storage.backExample configuration))].

Definition tool : M AnkiConnect.World json :=
  configurations <- AnkiConnect.getDeckConfigurations ;;
  if (length configurations =? 0)%nat then
    ret (JObject
           [((lit "error"),
             JString (lit "No deck configurations found. Please ask the user to run the 'Configure Anki Decks' command to set up their decks first."))])
  else
    ret (JObject
           [(lit "decks", JArray (map deckEntry configurations));
            ((lit "instructions"),
             JString (lit "Select the appropriate deck ID based on the user's content and the deck's purpose. Use the templates and examples as guidelines for formatting card fields."))]).

(** What a reader of the answer finds: the member of an object, and the
    deck ids under [decks], in order. *)
Fixpoint member (key : text) (members : list (text * json)) : option json :=
  match members with
  | [] => None
  | (k, v) :: rest => if eqb k key then Some v else member key rest
  end.

Definition deckIdOf (entry : json) : list number :=
  match entry with
  | JObject members =>
      match member (lit "deckId") members with
      | Some (JNumber n) => [n]
      | _ => []
      end
  | _ => []
  end.

Definition listedDeckIds (answer : json) : list number :=
  match answer with
  | JObject members =>
      match member (lit "decks") members with
      | Some (JArray entries) => flat_map deckIdOf entries
      | _ => []
      end
  | _ => []
  end.

Definition isError (answer : json) : bool :=
  match answer with
  | JObject members =>
      match member (lit "error") members with Some _ => true | None => false end
  | _ => false
  end.

End Discovery.

(** ** configure-decks.tsx: the forms of the configuration command *)

Module ConfigureDecks.
Import Js.

(** The values of a submitted form.  The note-type dropdown has the two
    items of [Storage.NoteType]; [None] is the empty value. *)
Record FormValues : Type := mkFormValues {
  deckId : text;
  purpose : text;
  noteType : option Storage.NoteType;
  frontTemplate : text;
  backTemplate : text;
  frontExample : text;
  backExample : text
}.

(** The toast a submission ends with; the toasts of the two [catch]
    blocks carry the error that was thrown. *)
Inductive Toast : Type :=
| InvalidInput
| DeckNotFound
| ConfigurationAdded
| ConfigurationUpdated
| FailedToAdd (error : Effect.Error)
| FailedToUpdate (error : Effect.Error).

(** One awaited call of storage.ts.  LocalStorage can reject; the call
    then throws and has written nothing, its one [setItem] being its last
    step.  [fault] is the error of a call that throws, [None] for a call
    that completes. *)
Definition attempt (fault : option Effect.Error)
    (operation : Storage.LocalStorage -> Storage.LocalStorage)
    (ls : Storage.LocalStorage) : Effect.Error + Storage.LocalStorage :=
  match fault with
  | Some e => inl e
  | None => inr (operation ls)
  end.

(** [decks.filter((deck) => !existingConfigurations.has(deck.id))] with
    [existingConfigurations] the set of ids given. *)
Definition availableDecks (decks : list Decks.DeckInfo)
    (existingConfigurations : list number) : list Decks.DeckInfo :=
  filter (fun deck =>
            negb (existsb (fun i => strictEq i (Decks.id deck))
                          existingConfigurations))
         decks.

(** The set built by [loadDecks] of the add form. *)
Definition existingForAdd (ls : Storage.LocalStorage) : list number :=
  map Storage.deckId (Storage.getDeckConfigurations ls).

(** The set built by [loadDecks] of the edit form: the deck being edited
    is left out, so that it appears in the dropdown. *)
Definition existingForEdit (configuration : Storage.DeckConfiguration)
    (ls : Storage.LocalStorage) : list number :=
  map Storage.deckId
      (filter (fun c => negb (strictEq (Storage.deckId c)
                                       (Storage.deckId configuration)))
              (Storage.getDeckConfigurations ls)).

Section Forms.
(** [parseInt(text, 10)]; [None] is NaN, which equals no deck id. *)
Variable parseInt10 : text -> option number.

(** The test that opens both [handleSubmit]: some required field is
    missing. *)
Definition incomplete (values : FormValues) : bool :=
  isEmpty (deckId values)
  || isEmpty (trim (purpose values))
  || match noteType values with None => true | Some _ => false end
  || isEmpty (trim (frontTemplate values))
  || isEmpty (trim (backTemplate values))
  || isEmpty (trim (frontExample values))
  || isEmpty (trim (backExample values)).

(** [decks.find((d) => d.id === deckId)] *)
Definition findDeck (decks : list Decks.DeckInfo) (deckId : option number)
    : option Decks.DeckInfo :=
  find (fun d => match deckId with
                 | Some n => strictEq (Decks.id d) n
                 | None => false
                 end)
       decks.

(** The preset both forms write for a deck and the values. *)
Definition presetOf (deck : Decks.DeckInfo) (t : Storage.NoteType)
    (values : FormValues) : Storage.DeckConfiguration :=
  Storage.mkDeckConfiguration
    (Decks.id deck) (Decks.name deck) (trim (purpose values)) t
    (trim (frontTemplate values)) (trim (backTemplate values))
    (trim (frontExample values)) (trim (backExample values)).

(** [handleSubmit] of [AddDeckConfigurationForm], with the [decks] the
    form has loaded; [addFault] decides the call of
    [addDeckConfiguration]. *)
Definition handleSubmitAdd (addFault : option Effect.Error)
    (decks : list Decks.DeckInfo) (values : FormValues)
    (ls : Storage.LocalStorage) : Toast * Storage.LocalStorage :=
  if incomplete values then (InvalidInput, ls)
  else
    let deckId := parseInt10 (deckId values) in
    match findDeck decks deckId, noteType values with
    | Some deck, Some t =>
        match attempt addFault
                      (Storage.addDeckConfiguration (presetOf deck t values))
                      ls with
        | inr ls' => (ConfigurationAdded, ls')
        | inl error => (FailedToAdd error, ls)
        end
    | _, _ => (DeckNotFound, ls)
    end.

(** [handleSubmit] of [EditDeckConfigurationForm] for the preset
    [configuration] being edited.  Inside the one [try] the old preset is
    removed first when the deck has changed, then the new one is added;
    [removeFault] and [addFault] decide the two calls. *)
Definition handleSubmitEdit (removeFault addFault : option Effect.Error)
    (configuration : Storage.DeckConfiguration)
    (decks : list Decks.DeckInfo) (values : FormValues)
    (ls : Storage.LocalStorage) : Toast * Storage.LocalStorage :=
  if incomplete values then (InvalidInput, ls)
  else
    let newDeckId := parseInt10 (deckId values) in
    match findDeck decks newDeckId, noteType values with
    | Some deck, Some t =>
        let changed :=
          match newDeckId with
          | Some n => negb (strictEq n (Storage.deckId configuration))
          | None => true
          end in
        let removed :=
          if changed
          then attempt removeFault
                       (Storage.removeDeckConfiguration
                          (Storage.deckId configuration))
                       ls
          else inr ls in
        match removed with
        | inl error => (FailedToUpdate error, ls)
        | inr ls1 =>
            match attempt addFault
                          (Storage.addDeckConfiguration (presetOf deck t values))
                          ls1 with
            | inr ls2 => (ConfigurationUpdated, ls2)
            | inl error => (FailedToUpdate error, ls1)
            end
        end
    | _, _ => (DeckNotFound, ls)
    end.
End Forms.

(** [handleRemoveConfiguration]: the preset is removed once the alert is
    confirmed; a call that throws ends in the failure toast and leaves the
    store as it was. *)
Definition handleRemoveConfiguration (confirmed : bool)
    (removeFault : option Effect.Error) (deckId : number)
    (ls : Storage.LocalStorage) : Storage.LocalStorage :=
  if confirmed then
    match attempt removeFault (Storage.removeDeckConfiguration deckId) ls with
    | inr ls' => ls'
    | inl _ => ls
    end
  else ls.

End ConfigureDecks.

(** ** Further vocabulary and scenarios *)

Module Terms.
Import Js AnkiConnect.

(** How often a character occurs in a string. *)
Fixpoint occurrences (c : N) (s : text) : nat :=
  match s with
  | [] => 0%nat
  | (c' :: r) =>
      if N.eqb c' c then S (occurrences c r) else occurrences c r
  end.

(** The value of the first row of that name. *)
Fixpoint row (name : text) (info : list (text * text)) : option text :=
  match info with
  | [] => None
  | (n, v) :: rest => if eqb n name then Some v else row name rest
  end.

(** A run of reads: no create, no update. *)
Definition reads (l : list Action) : Prop :=
  Forall (fun a => isWrite a = false) l.

(** The peer refuses the create request, as its own duplicate guard does. *)
Definition rejectingCreate : Peer :=
  fun a =>
    match a as a0 return Reply (Result a0) with
    | Version => Scenario.answer 6
    | FindNotes _ => Scenario.answer []
    | AddNote _ =>
        Scenario.failure (lit "cannot create note because it is a duplicate")
    | _ => Unreachable (lit "not used")
    end.

(** The peer answers an update as AnkiConnect documents it: no error and
    a null result. *)
Definition nullResult : Peer :=
  fun a =>
    match a as a0 return Reply (Result a0) with
    | UpdateNoteFields _ _ =>
        Responded true (lit "OK") (inr (mkResponse None None))
    | _ => Unreachable (lit "not used")
    end.

(** The peer answers with a server error and a body all the same. *)
Definition serverError : Peer :=
  fun a =>
    match a as a0 return Reply (Result a0) with
    | Version =>
        Responded false (lit "Internal Server Error")
                  (inr (mkResponse (Some 6) None))
    | _ => Unreachable (lit "not used")
    end.

(** A rendering in two paragraphs, and the rendering of a list. *)
Definition twoParagraphs (s : text) : text :=
  (lit "<p>" ++ s ++ lit "</p>" ++ LF ++ lit "<p>" ++ s ++ lit "</p>" ++ LF).

Definition oneItemList (s : text) : text :=
  (lit "<ul>" ++ LF ++ lit "<li>" ++ s ++ lit "</li>" ++ LF ++ lit "</ul>" ++ LF).

(** The texts of a preset are filled in: none is empty and each is its
    own trim. *)
Definition filledIn (c : Storage.DeckConfiguration) : Prop :=
  Forall (fun t => t <> [] /\ trim t = t)
         [Storage.purpose c; Storage.frontTemplate c; Storage.backTemplate c;
          Storage.frontExample c; Storage.backExample c].

(** The decks of Anki in the scenario, a form filled in for the second
    one, its purpose typed with a no-break space at the end, and a reading
    of decimal digits that knows their two ids. *)
Definition ankiDecks : list Decks.DeckInfo :=
  [Decks.mkDeckInfo (lit "Spanish::Vocab") 1; Decks.mkDeckInfo (lit "Spanish::Grammar") 2].

Definition grammarForm : ConfigureDecks.FormValues :=
  ConfigureDecks.mkFormValues (lit "2") (lit " Spanish grammar" ++ [160%N])
    (Some Storage.Basic)
    (lit "rule") (lit "explanation") (lit "ser / estar") (lit "to be").

Definition readId (digits : text) : option number :=
  if eqb digits (lit "1") then Some 1
  else if eqb digits (lit "2") then Some 2
  else None.

(** The card "hablar" with tags; a no-break space follows the first. *)
Definition hablarTagged : AddCard.Input :=
  AddCard.mkInput (Number 1) (lit "hablar") (lit "to speak")
                  (Some (lit " verb" ++ [160%N] ++ lit ",, a1")).

End Terms.

(** * Properties *)

(** ** Strings *)

Module JsFacts.
Import Js.

Lemma text_eqb_eq (s t : text) : eqb s t = true <-> s = t.
Proof.
  revert t. induction s as [|a s IH]; intros [|b t]; cbn;
    try (split; [discriminate | discriminate]); [tauto|].
  rewrite andb_true_iff, N.eqb_eq, IH. split.
  - intros [-> ->]. reflexivity.
  - intros H. injection H as -> ->. auto.
Qed.

Lemma text_eqb_neq (s t : text) : eqb s t = false <-> s <> t.
Proof.
  rewrite <- text_eqb_eq. destruct (eqb s t); split; congruence.
Qed.

Lemma trimStart_fixed (s : text) :
  (forall c r, s = (c :: r) -> isWhiteSpace c = false) -> trimStart s = s.
Proof.
  destruct s as [|c r]; intros H; simpl; [reflexivity|].
  now rewrite (H c r eq_refl).
Qed.

Lemma trimEnd_head (c : N) (r : text) :
  isWhiteSpace c = false -> trimEnd (c :: r) = c :: trimEnd r.
Proof. intros H. simpl. now rewrite H. Qed.

Lemma trimEnd_cons (c : N) (r : text) :
  trimEnd (c :: r) =
  if isWhiteSpace c && isEmpty (trimEnd r) then []
  else c :: trimEnd r.
Proof. reflexivity. Qed.

Lemma trimEnd_idempotent (s : text) : trimEnd (trimEnd s) = trimEnd s.
Proof.
  induction s as [|c r IH]; [reflexivity|].
  rewrite trimEnd_cons.
  destruct (isWhiteSpace c && isEmpty (trimEnd r)) eqn:E; [reflexivity|].
  rewrite trimEnd_cons, IH, E. reflexivity.
Qed.

Lemma trimStart_head (s : text) :
  forall c r, trimStart s = (c :: r) -> isWhiteSpace c = false.
Proof.
  induction s as [|c0 r0 IH]; simpl; intros c r H; [discriminate|].
  destruct (isWhiteSpace c0) eqn:Hc; [eauto|].
  now inversion H; subst.
Qed.

Lemma trim_head (s : text) :
  forall c r, trim s = (c :: r) -> isWhiteSpace c = false.
Proof.
  unfold trim. intros c r H.
  destruct (trimStart s) as [|c0 r0] eqn:E; [discriminate|].
  pose proof (trimStart_head s c0 r0 E) as Hc0.
  rewrite (trimEnd_head _ _ Hc0) in H. now inversion H; subst.
Qed.

Lemma trim_idempotent (s : text) : trim (trim s) = trim s.
Proof.
  unfold trim at 1.
  rewrite (trimStart_fixed (trim s) (trim_head s)).
  unfold trim. apply trimEnd_idempotent.
Qed.

Lemma trim_empty : trim [] = [].
Proof. reflexivity. Qed.

End JsFacts.

(** ** The client *)

Module AnkiConnectFacts.
Import Js Effect AnkiConnect.

(** A call logs its request and produces what [received] says. *)
Lemma invokeAnkiConnect_run (peer : Peer) (a : Action) (w : World) :
  invokeAnkiConnect peer a w
  = (received (peer a), mkWorld (localStorage w) (sent w ++ [a])).
Proof.
  unfold invokeAnkiConnect, bind, send, received, throw, ret.
  destruct (peer a) as [message|[|] statusText [e|[[r|] [[|c e]|]]]];
    reflexivity.
Qed.

Lemma checkAnkiConnection_run (peer : Peer) (w : World) :
  checkAnkiConnection peer w
  = (inr (match received (peer Version) with inr _ => true | inl _ => false end),
     mkWorld (localStorage w) (sent w ++ [Version])).
Proof.
  unfold checkAnkiConnection, tryCatch, bind.
  rewrite invokeAnkiConnect_run.
  destruct (received (peer Version)); reflexivity.
Qed.

(** C7, as the code has it.  On a response with a JSON body, the call
    fails whenever the [error] field is a non-empty string, with that
    string as message when the status is a success; it fails whenever
    the [result] field is null; and it returns a value exactly when the
    status is a success, [error] is null or the empty string, and
    [result] holds that value. *)
Theorem invokeAnkiConnect_on_response (peer : Peer) (a : Action) (w : World)
    (ok : bool) (statusText : text) (data : AnkiConnectResponse (Result a)) :
  peer a = Responded ok statusText (inr data) ->
  (forall e, error data = Some e -> e <> [] ->
     exists message,
       fst (invokeAnkiConnect peer a w) = inl message
       /\ (ok = true -> message = e))
  /\ (result data = None ->
      exists message, fst (invokeAnkiConnect peer a w) = inl message)
  /\ (forall r,
        fst (invokeAnkiConnect peer a w) = inr r
        <-> ok = true
            /\ (error data = None \/ error data = Some [])
            /\ result data = Some r).
Proof.
  intros Hpeer. rewrite invokeAnkiConnect_run, Hpeer. cbn [fst].
  unfold received. split; [|split].
  - intros e He Hne. rewrite He.
    destruct e as [|ch e']; [congruence|].
    destruct ok; eexists; split; try reflexivity. discriminate.
  - intros Hres. rewrite Hres.
    destruct ok; [|eexists; reflexivity].
    destruct (error data) as [[|ch e']|]; eexists; reflexivity.
  - intros r. split.
    + destruct ok; [|discriminate].
      destruct (error data) as [[|ch e']|]; try discriminate;
        (destruct (result data) as [r0|]; [|discriminate]);
        intros H; injection H as <-; auto.
    + intros [-> [Herr ->]].
      destruct Herr as [-> | ->]; reflexivity.
Qed.

Lemma invokeAnkiConnect_on_response_witness :
  fst (invokeAnkiConnect Scenario.emptyCollection Version (mkWorld None []))
  = inr 6.
Proof.
  destruct (invokeAnkiConnect_on_response
              Scenario.emptyCollection Version (mkWorld None []) true (lit "OK")
              (mkResponse (Some 6) None) eq_refl)
    as [_ [_ Hiff]].
  apply Hiff. split; [reflexivity|]. split; [left|]; reflexivity.
Defined.

(** C7, as stated, fails: a response whose [error] is the empty string,
    which is not null, does not make the call fail; the result is
    returned. *)
Lemma empty_error_is_not_thrown :
  exists data,
    Scenario.emptyError Version = Responded true (lit "OK") (inr data)
    /\ error data <> None
    /\ fst (invokeAnkiConnect Scenario.emptyError Version (mkWorld None []))
       = inr 6.
Proof.
  eexists. split; [reflexivity|]. split; [discriminate | reflexivity].
Qed.

End AnkiConnectFacts.

(** ** The tool, stage by stage *)

Module AddCardFacts.
Import Js Effect AnkiConnect AddCard Workflow Scenario.
Import JsFacts AnkiConnectFacts.

Section Stages.
Variable md_render : text -> text.
Variable peer : Peer.

Lemma checkDuplicates_run (c : Storage.DeckConfiguration) (input : Input)
    (w : World) :
  checkDuplicates peer c input w =
  let q := duplicateQuery c input in
  match received (peer (FindNotes q)) with
  | inl _ => (inr None, after w [FindNotes q])
  | inr ids =>
      if (0 <? length ids)%nat then
        match received (peer (NotesInfo ids)) with
        | inl _ => (inr None, after w [FindNotes q; NotesInfo ids])
        | inr infos =>
            (inr (Some (DuplicatesFound (length ids) (candidates infos))),
             after w [FindNotes q; NotesInfo ids])
        end
      else (inr None, after w [FindNotes q])
  end.
Proof.
  unfold checkDuplicates, tryCatch, bind, findNotes, notesInfo, after.
  fold (duplicateQuery c input). cbv zeta.
  rewrite invokeAnkiConnect_run.
  destruct (received (peer (FindNotes (duplicateQuery c input)))) as [e|ids];
    [reflexivity|].
  destruct (0 <? length ids)%nat; [|reflexivity].
  rewrite invokeAnkiConnect_run. cbn [sent localStorage].
  rewrite <- app_assoc. cbn [app].
  destruct (received (peer (NotesInfo ids))); reflexivity.
Qed.

Lemma createCard_run (c : Storage.DeckConfiguration)
    (fields : record text) (tags : list text) (w : World) :
  createCard peer c fields tags w =
  let deckName := Storage.deckName c in
  let noteType := Storage.noteTypeName (Storage.noteType c) in
  let note := mkNote deckName noteType fields tags false in
  (inr (match received (peer (AddNote note)) with
        | inr noteId => CardCreated deckName noteType noteId fields tags
        | inl errorMessage => CreateFailed errorMessage noteType deckName
        end),
   after w [AddNote note]).
Proof.
  unfold createCard, tryCatch, bind, addNote, after. cbv zeta.
  rewrite invokeAnkiConnect_run.
  destruct (received (peer (AddNote _))); reflexivity.
Qed.

Lemma blank_test (s : text) :
  isEmpty s || eqb (trim s) [] = true <-> trim s = [].
Proof.
  split.
  - destruct s; [reflexivity|]. cbn [isEmpty orb].
    apply text_eqb_eq.
  - intros H. rewrite H. apply orb_true_r.
Qed.

Lemma blank_test_false (s : text) :
  trim s <> [] -> isEmpty s || eqb (trim s) [] = false.
Proof.
  intros H. destruct (isEmpty s || eqb (trim s) []) eqn:E;
    [|reflexivity].
  now apply blank_test in E.
Qed.

(** The part of [tool] after the validation. *)
Lemma tool_validated (input : Input) (w : World) :
  validInput input ->
  tool md_render peer input w =
  match received (peer Version) with
  | inl _ => (inr CannotConnect, after w [Version])
  | inr _ =>
      let configurations := Storage.getDeckConfigurations (localStorage w) in
      match configurations with
      | [] => (inr NoDeckConfigurations, after w [Version])
      | _ :: _ =>
          match find (fun c => strictEqValue (Storage.deckId c) (deckId input))
                     configurations with
          | None => (inr (DeckNotConfigured (deckId input)), after w [Version])
          | Some c =>
              match checkDuplicates peer c input (after w [Version]) with
              | (inr (Some warning), w') => (inr warning, w')
              | (inr None, w') =>
                  createCard peer c (cardFields md_render input)
                             (parseTags (tags input)) w'
              | (inl e, w') => (inl e, w')
              end
          end
      end
  end.
Proof.
  intros [[id [Hid Hpos]] [Hfront Hback]].
  unfold tool. rewrite Hid. cbn [isNumber negb orb leqValue]. rewrite Hpos.
  rewrite (blank_test_false _ Hfront), (blank_test_false _ Hback).
  unfold bind at 1. rewrite checkAnkiConnection_run.
  fold (after w [Version]).
  destruct (received (peer Version)) as [e|v]; [reflexivity|].
  cbn [negb]. unfold bind at 1, getDeckConfigurations at 1.
  cbn [after localStorage]. cbv zeta.
  destruct (Storage.getDeckConfigurations (localStorage w)) as [|c0 rest] eqn:E;
    [reflexivity|].
  cbn [length Nat.eqb].
  destruct (find _ (c0 :: rest)) as [c|]; [|reflexivity].
  unfold bind. fold (cardFields md_render input).
  destruct (checkDuplicates peer c input _) as [[e|[warning|]] w'];
    reflexivity.
Qed.

Lemma valid_not_refused (input : Input) :
  validInput input -> ~ refusedDeckId (deckId input).
Proof.
  intros [[id [Hid Hpos]] _] Href.
  apply (Href id) in Hid. apply Qle_bool_iff in Hid.
  unfold leq in Hpos. congruence.
Qed.

(** The validation at the head of [tool]: the input is valid, or the
    tool answers at once, leaving the world as it was. *)
Lemma tool_validation (input : Input) (w : World) :
  validInput input
  \/ (refusedDeckId (deckId input)
      /\ tool md_render peer input w = (inr InvalidDeckId, w))
  \/ (~ refusedDeckId (deckId input)
      /\ trim (Front input) = []
      /\ tool md_render peer input w = (inr FrontRequired, w))
  \/ (~ refusedDeckId (deckId input)
      /\ trim (Front input) <> []
      /\ trim (Back input) = []
      /\ tool md_render peer input w = (inr BackRequired, w)).
Proof.
  unfold tool, refusedDeckId.
  destruct (deckId input) as [| |b|id|s|] eqn:Hid;
    try (right; left; split; [intros n Hn; discriminate Hn | reflexivity]).
  cbn [isNumber negb orb leqValue].
  destruct (leq id 0) eqn:Hpos.
  - right; left. split; [|reflexivity].
    intros n Hn. injection Hn as <-. now apply Qle_bool_iff.
  - assert (Hok : ~ (forall n, Number id = Number n -> (n <= 0)%Q)).
    { intros H. specialize (H id eq_refl). apply Qle_bool_iff in H.
      unfold leq in Hpos. congruence. }
    destruct (isEmpty (Front input) || eqb (trim (Front input)) [])
      eqn:Hfront.
    + right; right; left. apply blank_test in Hfront. auto.
    + assert (Hf : trim (Front input) <> []).
      { intros H. apply blank_test in H. congruence. }
      destruct (isEmpty (Back input) || eqb (trim (Back input)) [])
        eqn:Hback.
      * right; right; right. apply blank_test in Hback. auto.
      * left. repeat split; eauto.
        intros H. apply blank_test in H. congruence.
Qed.
End Stages.

Section Runs.
Variable md_render : text -> text.
Variable peer : Peer.

(** A run that gets to the duplicate check, in full. *)
Lemma tool_resolved (input : Input) (ls : Storage.LocalStorage)
    (c : Storage.DeckConfiguration) :
  reachesDuplicateCheck peer ls input c ->
  tool md_render peer input (start ls) =
  let q := duplicateQuery c input in
  let note := newNote md_render c input in
  match received (peer (FindNotes q)) with
  | inl _ =>
      (inr (committed md_render peer c input),
       mkWorld ls [Version; FindNotes q; AddNote note])
  | inr ids =>
      if (0 <? length ids)%nat then
        match received (peer (NotesInfo ids)) with
        | inl _ =>
            (inr (committed md_render peer c input),
             mkWorld ls [Version; FindNotes q; NotesInfo ids; AddNote note])
        | inr infos =>
            (inr (DuplicatesFound (length ids) (candidates infos)),
             mkWorld ls [Version; FindNotes q; NotesInfo ids])
        end
      else
        (inr (committed md_render peer c input),
         mkWorld ls [Version; FindNotes q; AddNote note])
  end.
Proof.
  intros [Hv [[v Hc] Hfind]].
  rewrite (tool_validated md_render peer input (start ls) Hv), Hc.
  unfold resolves in Hfind. cbn [start localStorage]. cbv zeta.
  destruct (Storage.getDeckConfigurations ls) as [|c0 rest] eqn:E;
    [discriminate Hfind|].
  rewrite Hfind, checkDuplicates_run. cbv zeta.
  destruct (received (peer (FindNotes (duplicateQuery c input)))) as [e|ids].
  - rewrite createCard_run. reflexivity.
  - destruct (0 <? length ids)%nat.
    + destruct (received (peer (NotesInfo ids))) as [e|infos];
        [rewrite createCard_run|]; reflexivity.
    + rewrite createCard_run. reflexivity.
Qed.

(** A run that stops at the probe or at the lookup of the preset. *)
Lemma tool_unresolved (input : Input) (ls : Storage.LocalStorage) :
  validInput input ->
  (forall c, ~ (connected peer /\ resolves ls input c)) ->
  tool md_render peer input (start ls) =
  (inr (match received (peer Version) with
        | inl _ => CannotConnect
        | inr _ =>
            match Storage.getDeckConfigurations ls with
            | [] => NoDeckConfigurations
            | _ :: _ => DeckNotConfigured (deckId input)
            end
        end),
   mkWorld ls [Version]).
Proof.
  intros Hv Hnone.
  rewrite (tool_validated md_render peer input (start ls) Hv).
  cbn [start localStorage]. cbv zeta.
  destruct (received (peer Version)) as [e|v] eqn:Hc; [reflexivity|].
  destruct (Storage.getDeckConfigurations ls) as [|c0 rest] eqn:E;
    [reflexivity|].
  destruct (find _ (c0 :: rest)) as [c|] eqn:Hfind; [|reflexivity].
  exfalso. apply (Hnone c). split; [now exists v|].
  unfold resolves. now rewrite E.
Qed.

Lemma unconfigured_not_resolved (input : Input) (ls : Storage.LocalStorage)
    (c : Storage.DeckConfiguration) :
  unconfigured ls input -> ~ resolves ls input c.
Proof.
  unfold unconfigured, resolves. intros Hun Hfind.
  apply find_some in Hfind. destruct Hfind as [Hin Heq].
  rewrite (Hun c Hin) in Heq. discriminate Heq.
Qed.

(** Every run has one of five request sequences; only the last two
    contain a write, the create request, and none contains an update. *)
Lemma tool_requests_cases (input : Input) (ls : Storage.LocalStorage) :
  let reqs := requests md_render peer input ls in
  let out := outcome md_render peer input ls in
  (reqs = [] /\ (out = inr InvalidDeckId \/ out = inr FrontRequired
                 \/ out = inr BackRequired))
  \/ (reqs = [Version]
      /\ (out = inr CannotConnect \/ out = inr NoDeckConfigurations
          \/ out = inr (DeckNotConfigured (deckId input))))
  \/ (exists c, resolves ls input c /\
        let q := duplicateQuery c input in
        let note := newNote md_render c input in
        (exists ids infos,
            reqs = [Version; FindNotes q; NotesInfo ids]
            /\ out = inr (DuplicatesFound (length ids) (candidates infos)))
        \/ (reqs = [Version; FindNotes q; AddNote note]
            /\ out = inr (committed md_render peer c input))
        \/ (exists ids,
               reqs = [Version; FindNotes q; NotesInfo ids; AddNote note]
               /\ out = inr (committed md_render peer c input))).
Proof.
  cbv zeta. unfold requests, outcome.
  destruct (tool_validation md_render peer input (start ls))
    as [Hv | [[Hr E] | [[Hr [Hf E]] | [Hr [Hf [Hb E]]]]]];
    try (left; rewrite E; cbn; auto 6; fail).
  destruct (received (peer Version)) as [e|v] eqn:Hc.
  - right; left. rewrite (tool_unresolved input ls Hv).
    + rewrite Hc. cbn. auto.
    + intros c [[v Hv'] _]. congruence.
  - destruct (find (fun c' => strictEqValue (Storage.deckId c') (deckId input))
                   (Storage.getDeckConfigurations ls)) as [c|] eqn:Hfind.
    + right; right. exists c. split; [exact Hfind|].
      rewrite (tool_resolved input ls c).
      2:{ split; [exact Hv|]. split; [now exists v | exact Hfind]. }
      cbv zeta.
      destruct (received (peer (FindNotes (duplicateQuery c input))))
        as [e|ids]; [cbn; auto|].
      destruct (0 <? length ids)%nat; [|cbn; auto].
      destruct (received (peer (NotesInfo ids))) as [e|infos]; cbn.
      * right; right. exists ids. auto.
      * left. exists ids, infos. auto.
    + right; left. rewrite (tool_unresolved input ls Hv).
      * rewrite Hc. cbn.
        destruct (Storage.getDeckConfigurations ls); auto.
      * intros c [_ Hres]. unfold resolves in Hres. congruence.
Qed.
End Runs.

(** C3, as the code has it.  When the deck id is not a number or is at
    most zero, or the front or the back is empty or only white space, the
    tool answers with a validation error and sends nothing to the peer:
    an invalid deck id gives [InvalidDeckId]; otherwise a blank front
    gives [FrontRequired]; otherwise a blank back gives [BackRequired]. *)
Theorem validation_rejects_before_any_request
    (md_render : text -> text) (peer : Peer) (input : Input)
    (ls : Storage.LocalStorage) :
  refusedDeckId (deckId input)
  \/ trim (Front input) = [] \/ trim (Back input) = [] ->
  requests md_render peer input ls = []
  /\ ((refusedDeckId (deckId input)
       /\ outcome md_render peer input ls = inr InvalidDeckId)
      \/ (~ refusedDeckId (deckId input)
          /\ trim (Front input) = []
          /\ outcome md_render peer input ls = inr FrontRequired)
      \/ (~ refusedDeckId (deckId input)
          /\ trim (Front input) <> []
          /\ trim (Back input) = []
          /\ outcome md_render peer input ls = inr BackRequired)).
Proof.
  intros H. unfold requests, outcome.
  destruct (tool_validation md_render peer input (start ls))
    as [Hv | [[Hr E] | [[Hr [Hf E]] | [Hr [Hf [Hb E]]]]]].
  - exfalso. pose proof (valid_not_refused input Hv) as Hn.
    destruct Hv as [_ [Hf Hb]]. tauto.
  - rewrite E. cbn. split; [reflexivity|]. left. auto.
  - rewrite E. cbn. split; [reflexivity|]. right; left. auto.
  - rewrite E. cbn. split; [reflexivity|]. right; right. auto.
Qed.

Lemma validation_rejects_before_any_request_witness :
  requests plainParagraph emptyCollection blankFront configured = []
  /\ outcome plainParagraph emptyCollection blankFront configured
     = inr FrontRequired.
Proof.
  destruct (validation_rejects_before_any_request
              plainParagraph emptyCollection blankFront configured)
    as [Hreq Hout].
  - right; left. reflexivity.
  - split; [exact Hreq|]. reflexivity.
Defined.

(** C3, as the specification states it, fails: 1.5 is not a positive
    integer, yet the card sent with deck id 1.5 passes the validation and
    the liveness probe goes out to the peer. *)
Lemma fractional_deck_id_reaches_the_peer :
  ~ isPositiveInteger (deckId hablarFractional)
  /\ requests plainParagraph offline hablarFractional configured = [Version]
  /\ outcome plainParagraph offline hablarFractional configured
     = inr CannotConnect.
Proof.
  split; [|split; reflexivity].
  intros [p [n [Hn Hq]]]. cbn in Hn. injection Hn as <-.
  unfold Qeq in Hq. cbn in Hq. lia.
Qed.







Lemma findingNothing_connected (peer : Peer) :
  connected peer -> connected (findingNothing peer).
Proof. intros [v Hv]. exists v. exact Hv. Qed.

(** C5.  When the run gets to the duplicate check and the search throws,
    or the search gives ids and the detail lookup throws, the tool does
    not stop there: it goes on to the create request, which is the last
    request of the run, nothing before it being a write; its answer is
    that of the creation step, the same answer the tool gives against
    the peer whose search finds no id, with the same create request. *)
Theorem failed_duplicate_check_proceeds_to_creation
    (md_render : text -> text) (peer : Peer) (input : Input)
    (ls : Storage.LocalStorage) (c : Storage.DeckConfiguration) :
  reachesDuplicateCheck peer ls input c ->
  duplicateCheckFails peer c input ->
  (exists checks,
      requests md_render peer input ls
      = checks ++ [AddNote (newNote md_render c input)]
      /\ Forall (fun a => isWrite a = false) checks)
  /\ outcome md_render peer input ls = inr (committed md_render peer c input)
  /\ outcome md_render peer input ls
     = outcome md_render (findingNothing peer) input ls
  /\ requests md_render (findingNothing peer) input ls
     = [Version; FindNotes (duplicateQuery c input);
        AddNote (newNote md_render c input)].
Proof.
  intros Hreach Hfail.
  assert (Hreach0 : reachesDuplicateCheck (findingNothing peer) ls input c).
  { destruct Hreach as [Hv [Hc Hres]].
    split; [exact Hv|]. split; [now apply findingNothing_connected | exact Hres]. }
  unfold requests, outcome.
  rewrite (tool_resolved md_render (findingNothing peer) input ls c Hreach0).
  rewrite (tool_resolved md_render peer input ls c Hreach).
  cbv zeta. cbn [findingNothing received error result length Nat.ltb Nat.leb].
  destruct Hfail as [[e He] | [ids [e [Hids [Hne He]]]]].
  - rewrite He. cbn [fst snd sent].
    split; [|repeat split].
    exists [Version; FindNotes (duplicateQuery c input)].
    split; [reflexivity | repeat constructor].
  - rewrite Hids, He.
    destruct ids as [|i ids']; [congruence|].
    cbn [length Nat.ltb Nat.leb fst snd sent].
    split; [|repeat split].
    exists [Version; FindNotes (duplicateQuery c input); NotesInfo (i :: ids')].
    split; [reflexivity | repeat constructor].
Qed.

Lemma failed_duplicate_check_proceeds_to_creation_witness :
  requests plainParagraph brokenDetails hablar configured
  = [Version; FindNotes (duplicateQuery spanishVocab hablar); NotesInfo [1500];
     AddNote (newNote plainParagraph spanishVocab hablar)]
  /\ outcome plainParagraph brokenDetails hablar configured
     = outcome plainParagraph (findingNothing brokenDetails) hablar configured.
Proof.
  destruct (failed_duplicate_check_proceeds_to_creation
              plainParagraph brokenDetails hablar configured spanishVocab)
    as [_ [_ [Hsame _]]].
  - split; [|split].
    + split; [exists 1; split; reflexivity|]. split; discriminate.
    + exists 6. reflexivity.
    + reflexivity.
  - right. exists [1500], (lit "collection is not available").
    split; [reflexivity|]. split; [discriminate | reflexivity].
  - split; [reflexivity | exact Hsame].
Defined.

(** C9.  In every run that gets to the duplicate check exactly one search
    is sent, and its query is [deck:"<name of the resolved preset>"]
    followed by a space and the front content as it was submitted, not
    its rendering: the query is the same whatever the renderer is. *)
Theorem duplicate_search_uses_raw_front
    (md_render : text -> text) (peer : Peer) (input : Input)
    (ls : Storage.LocalStorage) (c : Storage.DeckConfiguration) :
  reachesDuplicateCheck peer ls input c ->
  filter isSearch (requests md_render peer input ls)
  = [FindNotes (lit "deck:" ++ DQ ++ Storage.deckName c ++ DQ ++ lit " "
                 ++ Front input)].
Proof.
  intros Hreach. unfold requests.
  rewrite (tool_resolved md_render peer input ls c Hreach). cbv zeta.
  fold (duplicateQuery c input).
  destruct (received (peer (FindNotes (duplicateQuery c input)))) as [e|ids];
    [reflexivity|].
  destruct (0 <? length ids)%nat; [|reflexivity].
  destruct (received (peer (NotesInfo ids))); reflexivity.
Qed.

Lemma duplicate_search_uses_raw_front_witness :
  filter isSearch (requests (fun s => (lit "<p><em>") ++ s ++ lit "</em></p>")
                            emptyCollection hablar configured)
  = [FindNotes (lit "deck:" ++ DQ ++ lit "Spanish::Vocab" ++ DQ ++ lit " hablar")].
Proof.
  apply (duplicate_search_uses_raw_front
           (fun s => (lit "<p><em>") ++ s ++ lit "</em></p>")
           emptyCollection hablar configured spanishVocab).
  split; [|split].
  - split; [exists 1; split; reflexivity|]. split; discriminate.
  - exists 6. reflexivity.
  - reflexivity.
Defined.

(** C10, as the code has it.  When the run gets to the duplicate check,
    the search gives a non-empty list of ids and the detail lookup of
    those ids succeeds, the tool answers with the duplicate warning, which
    carries the number of ids and the id and field values of every
    candidate, and the requests of the run are the probe, the search and
    the lookup: no create and no update. *)
Theorem duplicates_found_warns_without_write
    (md_render : text -> text) (peer : Peer) (input : Input)
    (ls : Storage.LocalStorage) (c : Storage.DeckConfiguration)
    (ids : list number) (infos : list NoteInfo) :
  reachesDuplicateCheck peer ls input c ->
  received (peer (FindNotes (duplicateQuery c input))) = inr ids ->
  ids <> [] ->
  received (peer (NotesInfo ids)) = inr infos ->
  outcome md_render peer input ls
  = inr (DuplicatesFound (length ids) (candidates infos))
  /\ requests md_render peer input ls
     = [Version; FindNotes (duplicateQuery c input); NotesInfo ids]
  /\ Forall (fun a => isWrite a = false) (requests md_render peer input ls).
Proof.
  intros Hreach Hids Hne Hinfos. unfold requests, outcome.
  rewrite (tool_resolved md_render peer input ls c Hreach). cbv zeta.
  rewrite Hids. destruct ids as [|i ids']; [congruence|].
  cbn [length Nat.ltb Nat.leb]. rewrite Hinfos. cbn [fst snd sent].
  repeat split. repeat constructor.
Qed.

Lemma duplicates_found_warns_without_write_witness :
  outcome plainParagraph withDuplicate hablar configured
  = inr (DuplicatesFound 1 [(1500, [(lit "Front", (lit "hablar"))])])
  /\ requests plainParagraph withDuplicate hablar configured
     = [Version; FindNotes (duplicateQuery spanishVocab hablar);
        NotesInfo [1500]].
Proof.
  destruct (duplicates_found_warns_without_write
              plainParagraph withDuplicate hablar configured spanishVocab
              [1500] [existingNote])
    as [Hout [Hreq _]].
  - split; [|split].
    + split; [exists 1; split; reflexivity|]. split; discriminate.
    + exists 6. reflexivity.
    + reflexivity.
  - reflexivity.
  - discriminate.
  - reflexivity.
  - split; [exact Hout | exact Hreq].
Defined.

(** C10, as stated, fails: the search gives one id, the detail lookup
    throws, and the tool goes on to create the card. *)
Lemma unreadable_duplicate_is_created_anyway :
  received (brokenDetails (FindNotes (duplicateQuery spanishVocab hablar)))
  = inr [1500]
  /\ existsb isCreate (requests plainParagraph brokenDetails hablar configured)
     = true
  /\ outcome plainParagraph brokenDetails hablar configured
     = inr (CardCreated (lit "Spanish::Vocab") (lit "Basic") 1700
                        [(lit "Front", (lit "hablar")); (lit "Back", (lit "to speak"))] []).
Proof. repeat split. Qed.

(** C2, as the code has it.  The tool has no update-existing variant: no
    run ever sends an update request; and a run that ends with the
    duplicate warning has sent no create request either. *)
Theorem tool_never_updates
    (md_render : text -> text) (peer : Peer) (input : Input)
    (ls : Storage.LocalStorage) :
  Forall (fun a => isUpdate a = false) (requests md_render peer input ls)
  /\ (forall count cards,
         outcome md_render peer input ls = inr (DuplicatesFound count cards) ->
         Forall (fun a => isCreate a = false)
                (requests md_render peer input ls)).
Proof.
  destruct (tool_requests_cases md_render peer input ls)
    as [[Hr Ho] | [[Hr Ho] | [c [Hres [[ids [infos [Hr Ho]]] | [[Hr Ho] | [ids [Hr Ho]]]]]]]];
    rewrite Hr; (split; [repeat constructor|]); intros count cards Hout;
    try (repeat constructor; fail);
    exfalso; rewrite Ho in Hout; unfold committed in Hout;
    destruct (received (peer (AddNote (newNote md_render c input))));
    discriminate Hout.
Qed.

Lemma tool_never_updates_witness :
  Forall (fun a => isUpdate a = false)
         (requests plainParagraph withDuplicate hablar configured)
  /\ Forall (fun a => isCreate a = false)
            (requests plainParagraph withDuplicate hablar configured).
Proof.
  destruct (tool_never_updates plainParagraph withDuplicate hablar configured)
    as [Hu Hc].
  split; [exact Hu|].
  apply (Hc 1%nat [(1500, [(lit "Front", (lit "hablar"))])]). reflexivity.
Defined.

(** C2, as stated, fails: in the scenario with one duplicate candidate
    the input has nothing by which the caller could select an update;
    the run ends with the warning, neither [Updated] nor any update
    request. *)
Lemma duplicate_candidate_is_not_updated :
  outcome plainParagraph withDuplicate hablar configured
  = inr (DuplicatesFound 1 [(1500, [(lit "Front", (lit "hablar"))])])
  /\ existsb isUpdate (requests plainParagraph withDuplicate hablar configured)
     = false.
Proof. split; reflexivity. Qed.

End AddCardFacts.

(** ** The stored presets *)

Module StorageFacts.
Import Js Storage.

Lemma filter_filter_length {A : Type} (p q : A -> bool) (l : list A) :
  (length (filter p (filter q l)) <= length (filter p l))%nat.
Proof.
  induction l as [|x l IH]; cbn; [lia|].
  destruct (q x); cbn; destruct (p x); cbn; lia.
Qed.

(** Among the presets kept by [c.deckId !== id], none has an id equal to
    a number that equals [id]. *)
Lemma filter_other_empty (id id' : number) (l : list DeckConfiguration) :
  strictEq id id' = true ->
  filter (fun c => strictEq (deckId c) id')
         (filter (fun c => negb (strictEq (deckId c) id)) l) = [].
Proof.
  intros Heq. induction l as [|x l IH]; cbn; [reflexivity|].
  destruct (strictEq (deckId x) id) eqn:E; cbn; [exact IH|].
  destruct (strictEq (deckId x) id') eqn:E'; [|exact IH].
  exfalso. unfold strictEq in *.
  apply Qeq_bool_sym in Heq.
  rewrite (Qeq_bool_trans _ _ _ E' Heq) in E. discriminate E.
Qed.

Lemma invariant_initially : invariant None.
Proof. intros id. cbn. lia. Qed.

(** C8.  If the stored set holds at most one preset per deck id, it still
    does after [addDeckConfiguration] and after [removeDeckConfiguration].
    [addDeckConfiguration] stores the presets of the other deck ids, in
    their order, followed by the new preset, which is then the only one
    of its deck id; [removeDeckConfiguration] stores the presets of the
    other deck ids and nothing else. *)
Theorem storage_keeps_one_preset_per_deck
    (ls : LocalStorage) (configuration : DeckConfiguration) (id : number) :
  invariant ls ->
  invariant (addDeckConfiguration configuration ls)
  /\ invariant (removeDeckConfiguration id ls)
  /\ getDeckConfigurations (addDeckConfiguration configuration ls)
     = filter (fun c => negb (strictEq (deckId c) (deckId configuration)))
              (getDeckConfigurations ls)
       ++ [configuration]
  /\ presetsOf (deckId configuration) (addDeckConfiguration configuration ls)
     = [configuration]
  /\ presetsOf id (removeDeckConfiguration id ls) = []
  /\ (forall c, In c (getDeckConfigurations (removeDeckConfiguration id ls))
                <-> In c (getDeckConfigurations ls)
                    /\ strictEq (deckId c) id = false).
Proof.
  intros Hinv. repeat split.
  - intros id'. unfold presetsOf, addDeckConfiguration. cbn.
    rewrite filter_app, length_app. cbn.
    destruct (strictEq (deckId configuration) id') eqn:E; cbn.
    + rewrite (filter_other_empty _ _ _ E). cbn. lia.
    + pose proof (filter_filter_length
                    (fun c => strictEq (deckId c) id')
                    (fun c => negb (strictEq (deckId c) (deckId configuration)))
                    (getDeckConfigurations ls)) as H.
      specialize (Hinv id'). unfold presetsOf in Hinv. lia.
  - intros id'. unfold presetsOf, removeDeckConfiguration. cbn.
    pose proof (filter_filter_length
                  (fun c => strictEq (deckId c) id')
                  (fun c => negb (strictEq (deckId c) id))
                  (getDeckConfigurations ls)) as H.
    specialize (Hinv id'). unfold presetsOf in Hinv. lia.
  - unfold presetsOf, addDeckConfiguration. cbn.
    rewrite filter_app. cbn.
    assert (E : strictEq (deckId configuration) (deckId configuration) = true)
      by apply Qeq_bool_refl.
    rewrite E, (filter_other_empty _ _ _ E). reflexivity.
  - unfold presetsOf, removeDeckConfiguration. cbn.
    apply filter_other_empty, Qeq_bool_refl.
  - unfold removeDeckConfiguration in H. cbn in H.
    apply filter_In in H. tauto.
  - unfold removeDeckConfiguration in H. cbn in H.
    apply filter_In in H. destruct H as [_ H].
    now apply negb_true_iff in H.
  - intros [Hin Hne]. unfold removeDeckConfiguration. cbn.
    apply filter_In. split; [exact Hin|]. now rewrite Hne.
Qed.

Lemma storage_keeps_one_preset_per_deck_witness :
  invariant (addDeckConfiguration Scenario.spanishVocab Scenario.configured)
  /\ invariant (removeDeckConfiguration 1 Scenario.configured)
  /\ getDeckConfigurations
       (addDeckConfiguration Scenario.spanishVocab Scenario.configured)
     = [Scenario.spanishVocab]
  /\ getDeckConfigurations (removeDeckConfiguration 1 Scenario.configured) = [].
Proof.
  destruct (storage_keeps_one_preset_per_deck
              Scenario.configured Scenario.spanishVocab 1)
    as [Hadd [Hremove _]].
  - intros id. unfold presetsOf.
    change (getDeckConfigurations Scenario.configured)
      with [Scenario.spanishVocab].
    cbn [filter].
    destruct (strictEq (deckId Scenario.spanishVocab) id); cbn [length]; lia.
  - split; [exact Hadd|]. split; [exact Hremove|]. split; reflexivity.
Defined.

End StorageFacts.

(** ** The normalizer *)

Module NormalizerFacts.
Import Js AddCard JsFacts.

Lemma replaceClosing_unfold (s : text) :
  replaceClosing s =
  if eqb s (lit "</p>" ++ LF) || eqb s (lit "</p>") then []
  else match s with
       | [] => []
       | c :: r => c :: replaceClosing r
       end.
Proof. destruct s; reflexivity. Qed.

(** A string that is longer than another differs from it. *)
Lemma longer_differs (s t : text) :
  (length t < length s)%nat -> eqb s t = false.
Proof.
  intros Hlen. apply text_eqb_neq. intros H. rewrite H in Hlen. lia.
Qed.

(** The closing tag and line feed at the very end are removed, and
    nothing before them. *)
Lemma replaceClosing_closed (y : text) :
  replaceClosing (y ++ lit "</p>" ++ LF) = y.
Proof.
  induction y as [|c r IH]; [reflexivity|].
  rewrite replaceClosing_unfold.
  rewrite (longer_differs ((c :: r) ++ lit "</p>" ++ LF) (lit "</p>" ++ LF)),
    (longer_differs ((c :: r) ++ lit "</p>" ++ LF) (lit "</p>")).
  - cbn [orb app]. now rewrite IH.
  - rewrite !length_app. cbn. lia.
  - rewrite !length_app. cbn. lia.
Qed.

Lemma replaceWrapping_paragraph (y : text) :
  replaceWrapping (lit "<p>" ++ y ++ lit "</p>" ++ LF) = y.
Proof. cbn. apply replaceClosing_closed. Qed.

Lemma markdownToAnkiHtml_trimmed (md_render : text -> text) (x : text) :
  trim (markdownToAnkiHtml md_render x) = markdownToAnkiHtml md_render x.
Proof. unfold markdownToAnkiHtml. apply trim_idempotent. Qed.

(** C6, as the code has it.  Let [y] be the normalized form of [x].  When
    [y] holds nothing for the renderer to convert or to escape, that is,
    markdown-it renders [y] as the one paragraph [<p>y</p>] and a line
    feed, normalizing [y] gives [y] back:
    [normalize (normalize x) = normalize x]. *)
Theorem markdownToAnkiHtml_idempotent
    (md_render : text -> text) (x : text) :
  md_render (markdownToAnkiHtml md_render x)
  = lit "<p>" ++ markdownToAnkiHtml md_render x ++ lit "</p>" ++ LF ->
  markdownToAnkiHtml md_render (markdownToAnkiHtml md_render x)
  = markdownToAnkiHtml md_render x.
Proof.
  intros Hplain. unfold markdownToAnkiHtml at 1.
  rewrite Hplain, replaceWrapping_paragraph.
  apply markdownToAnkiHtml_trimmed.
Qed.

Lemma markdownToAnkiHtml_idempotent_witness :
  markdownToAnkiHtml Scenario.plainParagraph
    (markdownToAnkiHtml Scenario.plainParagraph (lit " hablar "))
  = lit "hablar".
Proof.
  rewrite (markdownToAnkiHtml_idempotent Scenario.plainParagraph (lit " hablar "));
    reflexivity.
Defined.

(** C6, as stated, fails.  The normalized form of [**hablar**] is
    [<strong>hablar</strong>], markup of the peer with nothing left of the
    light markup; raw HTML being disabled, normalizing it again escapes
    the tags and gives another string. *)
Lemma normalized_markup_is_escaped :
  markdownToAnkiHtml Scenario.escapingRender (lit "**hablar**")
  = lit "<strong>hablar</strong>"
  /\ markdownToAnkiHtml Scenario.escapingRender
       (markdownToAnkiHtml Scenario.escapingRender (lit "**hablar**"))
     = lit "&lt;strong&gt;hablar&lt;/strong&gt;"
  /\ markdownToAnkiHtml Scenario.escapingRender
       (markdownToAnkiHtml Scenario.escapingRender (lit "**hablar**"))
     <> markdownToAnkiHtml Scenario.escapingRender (lit "**hablar**").
Proof.
  split; [reflexivity|]. split; [reflexivity|]. discriminate.
Qed.

End NormalizerFacts.

(** ** The stored presets: lookups, round trips and counts *)

Module StorageLaws.
Import Js Storage.

Lemma strictEq_refl (a : number) : strictEq a a = true.
Proof. apply Qeq_bool_refl. Qed.

Lemma strictEq_sym (a b : number) : strictEq a b = strictEq b a.
Proof. apply Qeq_bool_comm. Qed.

(** Equal numbers compare alike with any third number. *)
Lemma strictEq_congr (a b x : number) :
  strictEq a b = true -> strictEq x a = strictEq x b.
Proof.
  unfold strictEq. intros Hab.
  destruct (Qeq_bool x a) eqn:Ea, (Qeq_bool x b) eqn:Eb; try reflexivity.
  - rewrite (Qeq_bool_trans _ _ _ Ea Hab) in Eb. discriminate Eb.
  - apply Qeq_bool_sym in Hab.
    rewrite (Qeq_bool_trans _ _ _ Eb Hab) in Ea. discriminate Ea.
Qed.

Lemma filter_ext_bool {A : Type} (p q : A -> bool) (l : list A) :
  (forall x, p x = q x) -> filter p l = filter q l.
Proof.
  intros H. induction l as [|x l IH]; cbn; [reflexivity|].
  now rewrite H, IH.
Qed.

Lemma filter_twice {A : Type} (p : A -> bool) (l : list A) :
  filter p (filter p l) = filter p l.
Proof.
  induction l as [|x l IH]; cbn; [reflexivity|].
  destruct (p x) eqn:E; cbn; [rewrite E|]; now rewrite ?IH.
Qed.

Lemma filter_swap {A : Type} (p q : A -> bool) (l : list A) :
  filter p (filter q l) = filter q (filter p l).
Proof.
  induction l as [|x l IH]; cbn; [reflexivity|].
  destruct (p x) eqn:Ep, (q x) eqn:Eq; cbn; rewrite ?Ep, ?Eq, ?IH; reflexivity.
Qed.

Lemma filter_all {A : Type} (p : A -> bool) (l : list A) :
  existsb (fun x => negb (p x)) l = false -> filter p l = l.
Proof.
  induction l as [|x l IH]; cbn; [reflexivity|].
  intros H. apply orb_false_iff in H. destruct H as [Hx Hl].
  apply negb_false_iff in Hx. now rewrite Hx, IH.
Qed.

Lemma filter_split_length {A : Type} (p : A -> bool) (l : list A) :
  (length (filter p l) + length (filter (fun x => negb (p x)) l) = length l)%nat.
Proof.
  induction l as [|x l IH]; cbn; [reflexivity|].
  destruct (p x); cbn; lia.
Qed.

Lemma existsb_filter_length {A : Type} (p : A -> bool) (l : list A) :
  existsb p l = negb (length (filter p l) =? 0)%nat.
Proof.
  induction l as [|x l IH]; cbn; [reflexivity|].
  destruct (p x); cbn; [reflexivity | exact IH].
Qed.

(** Dropping the presets of one id does not touch the test for another. *)
Lemma existsb_other (id id' : number) (l : list DeckConfiguration) :
  strictEq id id' = false ->
  existsb (fun c => strictEq (deckId c) id')
          (filter (fun c => negb (strictEq (deckId c) id)) l)
  = existsb (fun c => strictEq (deckId c) id') l.
Proof.
  intros Hne. induction l as [|x l IH]; cbn; [reflexivity|].
  destruct (strictEq (deckId x) id) eqn:E; cbn.
  - rewrite IH.
    assert (Hx : strictEq (deckId x) id' = false).
    { rewrite strictEq_sym, (strictEq_congr _ _ id' E), strictEq_sym.
      exact Hne. }
    now rewrite Hx.
  - now rewrite IH.
Qed.

Lemma existsb_same (id : number) (l : list DeckConfiguration) :
  existsb (fun c => strictEq (deckId c) id)
          (filter (fun c => negb (strictEq (deckId c) id)) l) = false.
Proof.
  induction l as [|x l IH]; cbn; [reflexivity|].
  destruct (strictEq (deckId x) id) eqn:E; cbn; [exact IH|].
  now rewrite E, IH.
Qed.

(** X1.  After [addDeckConfiguration] the deck of the new preset is
    configured, and the answer of [isDeckConfigured] for every other deck
    id is what it was. *)
Theorem configured_after_add (configuration : DeckConfiguration)
    (ls : LocalStorage) :
  isDeckConfigured (deckId configuration) (addDeckConfiguration configuration ls)
  = true
  /\ forall id,
       strictEq (deckId configuration) id = false ->
       isDeckConfigured id (addDeckConfiguration configuration ls)
       = isDeckConfigured id ls.
Proof.
  unfold isDeckConfigured, addDeckConfiguration. cbn. split.
  - rewrite existsb_app. cbn. rewrite strictEq_refl. apply orb_true_r.
  - intros id Hne. rewrite existsb_app. cbn. rewrite Hne.
    rewrite !orb_false_r. now apply existsb_other.
Qed.

Lemma configured_after_add_witness :
  isDeckConfigured 1 (addDeckConfiguration Scenario.spanishVocab None) = true
  /\ isDeckConfigured 2 (addDeckConfiguration Scenario.spanishVocab None) = false.
Proof.
  destruct (configured_after_add Scenario.spanishVocab None) as [Hsame Hother].
  split; [exact Hsame|]. rewrite (Hother 2); reflexivity.
Defined.

(** X2.  After [removeDeckConfiguration] the deck is not configured, and
    the answer of [isDeckConfigured] for every other deck id is what it
    was. *)
Theorem unconfigured_after_remove (id : number) (ls : LocalStorage) :
  isDeckConfigured id (removeDeckConfiguration id ls) = false
  /\ forall id',
       strictEq id id' = false ->
       isDeckConfigured id' (removeDeckConfiguration id ls)
       = isDeckConfigured id' ls.
Proof.
  unfold isDeckConfigured, removeDeckConfiguration. cbn. split.
  - apply existsb_same.
  - intros id' Hne. now apply existsb_other.
Qed.

Lemma unconfigured_after_remove_witness :
  isDeckConfigured 1 (removeDeckConfiguration 2 Scenario.configured) = true
  /\ isDeckConfigured 2 (removeDeckConfiguration 2 Scenario.configured) = false.
Proof.
  destruct (unconfigured_after_remove 2 Scenario.configured) as [Hsame Hother].
  split; [|exact Hsame]. rewrite (Hother 1); reflexivity.
Defined.

(** X3.  Adding a preset for a deck that had none and removing that deck
    again gives back the stored list. *)
Theorem remove_after_add_restores (configuration : DeckConfiguration)
    (ls : LocalStorage) :
  isDeckConfigured (deckId configuration) ls = false ->
  getDeckConfigurations
    (removeDeckConfiguration (deckId configuration)
                             (addDeckConfiguration configuration ls))
  = getDeckConfigurations ls.
Proof.
  unfold isDeckConfigured, removeDeckConfiguration, addDeckConfiguration.
  cbn. intros Hnew.
  rewrite filter_app, filter_twice. cbn.
  rewrite strictEq_refl. cbn. rewrite app_nil_r.
  apply filter_all.
  rewrite <- Hnew. clear Hnew.
  induction (getDeckConfigurations ls) as [|x l IH]; cbn; [reflexivity|].
  now rewrite negb_involutive, IH.
Qed.

Lemma remove_after_add_restores_witness :
  getDeckConfigurations
    (removeDeckConfiguration 1 (addDeckConfiguration Scenario.spanishVocab None))
  = [].
Proof.
  exact (remove_after_add_restores Scenario.spanishVocab None eq_refl).
Defined.

(** X4.  Of two presets added one after the other for the same deck only
    the second is kept: the store is what adding the second alone gives. *)
Theorem last_add_wins (first second : DeckConfiguration) (ls : LocalStorage) :
  strictEq (deckId first) (deckId second) = true ->
  addDeckConfiguration second (addDeckConfiguration first ls)
  = addDeckConfiguration second ls.
Proof.
  unfold addDeckConfiguration, saveDeckConfigurations. cbn. intros Hsame.
  rewrite filter_app. cbn. rewrite Hsame. cbn. rewrite app_nil_r.
  do 2 f_equal.
  rewrite (filter_ext_bool
             (fun c => negb (strictEq (deckId c) (deckId first)))
             (fun c => negb (strictEq (deckId c) (deckId second)))).
  - apply filter_twice.
  - intros x. f_equal. now apply strictEq_congr.
Qed.

Lemma last_add_wins_witness :
  addDeckConfiguration Scenario.spanishVocab
    (addDeckConfiguration Scenario.spanishVocab Scenario.configured)
  = Some [Scenario.spanishVocab].
Proof.
  rewrite (last_add_wins Scenario.spanishVocab Scenario.spanishVocab
             Scenario.configured eq_refl).
  reflexivity.
Defined.

(** X5.  Removals commute, and removing a deck twice is removing it
    once. *)
Theorem removals_commute (a b : number) (ls : LocalStorage) :
  removeDeckConfiguration a (removeDeckConfiguration b ls)
  = removeDeckConfiguration b (removeDeckConfiguration a ls)
  /\ removeDeckConfiguration a (removeDeckConfiguration a ls)
     = removeDeckConfiguration a ls.
Proof.
  unfold removeDeckConfiguration, saveDeckConfigurations. cbn. split; f_equal.
  - apply filter_swap.
  - apply filter_twice.
Qed.

(** X6.  On a store with at most one preset per deck, adding a preset for
    a configured deck keeps the number of presets and adding one for
    another deck raises it by one; removing a configured deck lowers it by
    one and removing another deck keeps it. *)
Theorem preset_count (configuration : DeckConfiguration) (id : number)
    (ls : LocalStorage) :
  invariant ls ->
  length (getDeckConfigurations (addDeckConfiguration configuration ls))
  = (if isDeckConfigured (deckId configuration) ls
     then length (getDeckConfigurations ls)
     else S (length (getDeckConfigurations ls)))
  /\ length (getDeckConfigurations ls)
     = (if isDeckConfigured id ls
        then S (length (getDeckConfigurations (removeDeckConfiguration id ls)))
        else length (getDeckConfigurations (removeDeckConfiguration id ls))).
Proof.
  intros Hinv.
  assert (Hcount : forall i,
    length (getDeckConfigurations ls)
    = ((if isDeckConfigured i ls then 1 else 0)
       + length (filter (fun c => negb (strictEq (deckId c) i))
                        (getDeckConfigurations ls)))%nat).
  { intros i. specialize (Hinv i). unfold presetsOf in Hinv.
    unfold isDeckConfigured. rewrite existsb_filter_length.
    pose proof (filter_split_length (fun c => strictEq (deckId c) i)
                                    (getDeckConfigurations ls)) as Hsplit.
    destruct (length (filter (fun c => strictEq (deckId c) i)
                             (getDeckConfigurations ls))) as [|[|n]];
      cbn in *; lia. }
  split.
  - unfold addDeckConfiguration. cbn. rewrite length_app. cbn.
    rewrite (Hcount (deckId configuration)).
    destruct (isDeckConfigured (deckId configuration) ls); lia.
  - unfold removeDeckConfiguration. cbn. rewrite (Hcount id).
    destruct (isDeckConfigured id ls); lia.
Qed.

Lemma preset_count_witness :
  length (getDeckConfigurations
            (addDeckConfiguration Scenario.spanishVocab Scenario.configured))
  = 1%nat.
Proof.
  destruct (preset_count Scenario.spanishVocab 1 Scenario.configured)
    as [Hadd _].
  - intros id. unfold presetsOf.
    change (getDeckConfigurations Scenario.configured)
      with [Scenario.spanishVocab].
    cbn [filter].
    destruct (strictEq (deckId Scenario.spanishVocab) id); cbn [length]; lia.
  - rewrite Hadd. reflexivity.
Defined.

End StorageLaws.

(** ** The client: every operation *)

Module ClientLaws.
Import Js Effect AnkiConnect Workflow Terms.
Import AnkiConnectFacts.

(** X7.  [checkAnkiConnection] never throws and sends the one probe.  It
    answers [true] exactly when the reply has a success status and a JSON
    body whose [error] is null or empty and whose [result] is not null;
    on every other reply, and when the peer cannot be reached, it answers
    [false]. *)
Theorem checkAnkiConnection_total (peer : Peer) (w : World) :
  exists b,
    checkAnkiConnection peer w = (inr b, after w [Version])
    /\ (b = true
        <-> exists statusText data v,
              peer Version = Responded true statusText (inr data)
              /\ (error data = None \/ error data = Some [])
              /\ result data = Some v).
Proof.
  rewrite checkAnkiConnection_run. eexists. split; [reflexivity|]. split.
  - intros Hb. unfold received in Hb.
    destruct (peer Version) as [m|ok st json]; [discriminate|].
    destruct ok; [|discriminate].
    destruct json as [e|data]; [discriminate|].
    destruct (error data) as [[|ch e']|] eqn:Herr;
      destruct (result data) as [r|] eqn:Hres;
      try discriminate; exists st, data, r; auto.
  - intros [st [data [v [Hp [Herr Hres]]]]]. rewrite Hp.
    unfold received. rewrite Hres.
    destruct Herr as [-> | ->]; reflexivity.
Qed.

(** X8.  On a reply whose status is not a success the call throws
    [AnkiConnect request failed: <statusText>], whatever the body holds,
    also a body with a result. *)
Theorem invokeAnkiConnect_bad_status (peer : Peer) (a : Action) (w : World)
    (statusText : text) (json : Error + AnkiConnectResponse (Result a)) :
  peer a = Responded false statusText json ->
  fst (invokeAnkiConnect peer a w)
  = inl (lit "AnkiConnect request failed: " ++ statusText).
Proof.
  intros H. rewrite invokeAnkiConnect_run, H. reflexivity.
Qed.

Lemma invokeAnkiConnect_bad_status_witness :
  fst (invokeAnkiConnect serverError Version (mkWorld None []))
  = inl (lit "AnkiConnect request failed: Internal Server Error").
Proof.
  exact (invokeAnkiConnect_bad_status serverError Version (mkWorld None [])
           (lit "Internal Server Error") (inr (mkResponse (Some 6) None)) eq_refl).
Defined.

(** X9.  Every operation of the client sends exactly one request, whether
    the peer answers it or not, and leaves LocalStorage alone: nothing is
    sent twice. *)
Theorem operations_send_once (peer : Peer) (w : World) :
  snd (getDeckNamesAndIds peer w) = after w [DeckNamesAndIds]
  /\ snd (Decks.getDecks peer w) = after w [DeckNamesAndIds]
  /\ (forall deckName modelName fields tags,
        exists note,
          snd (addNote peer deckName modelName fields tags w)
          = after w [AddNote note]
          /\ note_allowDuplicate note = false)
  /\ (forall query, snd (findNotes peer query w) = after w [FindNotes query])
  /\ (forall ids, snd (notesInfo peer ids w) = after w [NotesInfo ids])
  /\ (forall id fields,
        snd (updateNoteFields peer id fields w)
        = after w [UpdateNoteFields id fields])
  /\ snd (getModelNames peer w) = after w [ModelNames]
  /\ (forall modelName,
        snd (getModelFieldNames peer modelName w)
        = after w [ModelFieldNames modelName]).
Proof.
  unfold getDeckNamesAndIds, Decks.getDecks, addNote, findNotes, notesInfo,
    updateNoteFields, getModelNames, getModelFieldNames, getDeckNamesAndIds,
    bind, ret.
  split; [rewrite invokeAnkiConnect_run; reflexivity|].
  split; [rewrite invokeAnkiConnect_run;
          destruct (received (peer DeckNamesAndIds)); reflexivity|].
  split; [intros; eexists; rewrite invokeAnkiConnect_run;
          split; reflexivity|].
  split; [intros; rewrite invokeAnkiConnect_run; reflexivity|].
  split; [intros; rewrite invokeAnkiConnect_run; reflexivity|].
  split; [intros i f; rewrite invokeAnkiConnect_run;
          destruct (received (peer (UpdateNoteFields i f)));
          reflexivity|].
  split; intros; rewrite invokeAnkiConnect_run; reflexivity.
Qed.

(** X10.  On a reply with a success status whose [result] is null and
    whose [error] is null or empty, [updateNoteFields] throws
    [AnkiConnect returned null result]. *)
Theorem updateNoteFields_null_result (peer : Peer) (w : World)
    (id : number) (fields : record text) (statusText : text)
    (data : AnkiConnectResponse unit) :
  peer (UpdateNoteFields id fields) = Responded true statusText (inr data) ->
  result data = None ->
  error data = None \/ error data = Some [] ->
  fst (updateNoteFields peer id fields w)
  = inl (lit "AnkiConnect returned null result").
Proof.
  intros H Hres Herr. unfold updateNoteFields, bind.
  rewrite invokeAnkiConnect_run, H.
  destruct data as [res err]. cbn in Hres, Herr. subst res.
  destruct Herr as [-> | ->]; reflexivity.
Qed.

Lemma updateNoteFields_null_result_witness :
  fst (updateNoteFields nullResult 1500 [(lit "Front", lit "hablar")]
                        (mkWorld None []))
  = inl (lit "AnkiConnect returned null result").
Proof.
  apply (updateNoteFields_null_result nullResult (mkWorld None []) 1500
           [(lit "Front", lit "hablar")] (lit "OK") (mkResponse None None)
           eq_refl eq_refl).
  left. reflexivity.
Defined.

End ClientLaws.

(** ** The tool: requests, failures, tags and fields *)

Module ToolLaws.
Import Js Effect AnkiConnect AddCard Workflow Scenario Terms.
Import JsFacts AnkiConnectFacts AddCardFacts NormalizerFacts.



(** X11.  The requests of a run are at most three reads, the probe first,
    followed by at most one create request, which is then the last
    request: nothing is sent after a create and no create is repeated. *)
Theorem request_discipline (md_render : text -> text) (peer : Peer)
    (input : Input) (ls : Storage.LocalStorage) :
  exists rs,
    reads rs
    /\ (length rs <= 3)%nat
    /\ (rs = [] \/ exists rest, rs = Version :: rest)
    /\ (requests md_render peer input ls = rs
        \/ exists note, requests md_render peer input ls = rs ++ [AddNote note]).
Proof.
  destruct (tool_requests_cases md_render peer input ls)
    as [[Hr _] | [[Hr _] | [c [_ [[ids [infos [Hr _]]] | [[Hr _] | [ids [Hr _]]]]]]]];
    rewrite Hr.
  - exists []. repeat split; [constructor | cbn; lia | auto | auto].
  - exists [Version]. repeat split; [repeat constructor | cbn; lia | eauto | auto].
  - eexists. split; [|split; [|split; [|left; reflexivity]]];
      [repeat constructor | cbn; lia | eauto].
  - exists [Version; FindNotes (duplicateQuery c input)].
    split; [repeat constructor|]. split; [cbn; lia|]. split; [eauto|].
    right. eexists. reflexivity.
  - exists [Version; FindNotes (duplicateQuery c input); NotesInfo ids].
    split; [repeat constructor|]. split; [cbn; lia|]. split; [eauto|].
    right. eexists. reflexivity.
Qed.

(** X12.  When the input is valid and the probe fails, the tool answers
    [CannotConnect] after the probe alone, whatever LocalStorage holds:
    the stored presets are not looked at. *)
Theorem failed_probe_stops_the_run (md_render : text -> text) (peer : Peer)
    (input : Input) (ls : Storage.LocalStorage) (e : Error) :
  validInput input ->
  received (peer Version) = inl e ->
  outcome md_render peer input ls = inr CannotConnect
  /\ requests md_render peer input ls = [Version].
Proof.
  intros Hv He. unfold outcome, requests.
  rewrite (tool_validated md_render peer input (start ls) Hv), He.
  split; reflexivity.
Qed.

Lemma failed_probe_stops_the_run_witness :
  outcome plainParagraph offline hablar configured = inr CannotConnect
  /\ requests plainParagraph offline hablar configured = [Version].
Proof.
  apply (failed_probe_stops_the_run plainParagraph offline hablar configured
           (lit "fetch failed")).
  - split; [exists 1; split; reflexivity|]. split; discriminate.
  - reflexivity.
Defined.

(** X13.  When the search finds nothing and the create call throws, the
    tool answers [CreateFailed] with the message of that exception, the
    note type and the deck name of the preset; the create request is not
    sent again. *)
Theorem create_failure_keeps_message (md_render : text -> text)
    (peer : Peer) (input : Input) (ls : Storage.LocalStorage)
    (c : Storage.DeckConfiguration) (e : Error) :
  reachesDuplicateCheck peer ls input c ->
  received (peer (FindNotes (duplicateQuery c input))) = inr [] ->
  received (peer (AddNote (newNote md_render c input))) = inl e ->
  outcome md_render peer input ls
  = inr (CreateFailed e (Storage.noteTypeName (Storage.noteType c))
                      (Storage.deckName c))
  /\ requests md_render peer input ls
     = [Version; FindNotes (duplicateQuery c input);
        AddNote (newNote md_render c input)].
Proof.
  intros Hreach Hsearch Hadd. unfold outcome, requests.
  rewrite (tool_resolved md_render peer input ls c Hreach). cbv zeta.
  rewrite Hsearch. cbn [length Nat.ltb Nat.leb fst snd sent].
  unfold committed. rewrite Hadd. split; reflexivity.
Qed.

Lemma create_failure_keeps_message_witness :
  outcome plainParagraph rejectingCreate hablar configured
  = inr (CreateFailed (lit "cannot create note because it is a duplicate")
                      (lit "Basic") (lit "Spanish::Vocab")).
Proof.
  apply (create_failure_keeps_message plainParagraph rejectingCreate hablar
           configured spanishVocab).
  - split; [|split].
    + split; [exists 1; split; reflexivity|]. split; discriminate.
    + exists 6. reflexivity.
    + reflexivity.
  - reflexivity.
  - reflexivity.
Defined.

(** X14.  Every create request of a run is the note of the preset the
    lookup has found: its deck name and note type are those of the preset,
    its tags the parsed tags, and [allowDuplicate] is false. *)
Theorem creates_use_the_preset (md_render : text -> text) (peer : Peer)
    (input : Input) (ls : Storage.LocalStorage) (note : Note) :
  In (AddNote note) (requests md_render peer input ls) ->
  note_allowDuplicate note = false
  /\ note_tags note = parseTags (tags input)
  /\ exists c,
       resolves ls input c
       /\ note_deckName note = Storage.deckName c
       /\ note_modelName note = Storage.noteTypeName (Storage.noteType c).
Proof.
  intros Hin.
  assert (H : exists c, resolves ls input c /\ note = newNote md_render c input).
  { destruct (tool_requests_cases md_render peer input ls)
      as [[Hr _] | [[Hr _] | [c [Hres [[ids [infos [Hr _]]] | [[Hr _] | [ids [Hr _]]]]]]]];
      rewrite Hr in Hin; cbn in Hin;
      repeat (destruct Hin as [Hin | Hin]; try discriminate Hin);
      try contradiction;
      injection Hin as <-; exists c; auto. }
  destruct H as [c [Hres ->]]. split; [reflexivity|]. split; [reflexivity|].
  exists c. auto.
Qed.

Lemma creates_use_the_preset_witness :
  note_allowDuplicate (newNote plainParagraph spanishVocab hablar) = false.
Proof.
  apply (creates_use_the_preset plainParagraph emptyCollection hablar configured
           (newNote plainParagraph spanishVocab hablar)).
  cbn. right; right; left. reflexivity.
Defined.

(** X15.  The tool never changes LocalStorage. *)
Theorem tool_keeps_storage (md_render : text -> text) (peer : Peer)
    (input : Input) (ls : Storage.LocalStorage) :
  localStorage (snd (tool md_render peer input (start ls))) = ls.
Proof.
  destruct (tool_validation md_render peer input (start ls))
    as [Hv | [[_ E] | [[_ [_ E]] | [_ [_ [_ E]]]]]];
    try (rewrite E; reflexivity).
  destruct (received (peer Version)) as [e|v] eqn:Hc.
  - rewrite (tool_unresolved md_render peer input ls Hv); [reflexivity|].
    intros c [[v Hv'] _]. congruence.
  - destruct (find (fun c' => strictEqValue (Storage.deckId c') (deckId input))
                   (Storage.getDeckConfigurations ls)) as [c|] eqn:Hfind.
    + rewrite (tool_resolved md_render peer input ls c).
      2:{ split; [exact Hv|]. split; [now exists v | exact Hfind]. }
      cbv zeta.
      destruct (received (peer (FindNotes (duplicateQuery c input))))
        as [e|ids]; [reflexivity|].
      destruct (0 <? length ids)%nat; [|reflexivity].
      destruct (received (peer (NotesInfo ids))); reflexivity.
    + rewrite (tool_unresolved md_render peer input ls Hv); [reflexivity|].
      intros c [_ Hres]. unfold resolves in Hres. congruence.
Qed.

Lemma split_length (sep : N) (s : text) :
  length (split sep s) = S (occurrences sep s).
Proof.
  induction s as [|c r IH]; [reflexivity|]. cbn.
  destruct (N.eqb c sep); cbn; [now rewrite IH|].
  destruct (split sep r) as [|h t]; [discriminate IH | exact IH].
Qed.

(** X16.  Tags: no tags and the empty text give no tag; any other text
    gives one tag more than it has commas, blank pieces included as empty
    tags, and every tag is trimmed. *)
Theorem parseTags_pieces (t : text) :
  parseTags None = []
  /\ parseTags (Some []) = []
  /\ (t <> [] ->
      length (parseTags (Some t)) = S (occurrences comma t))
  /\ Forall (fun tag => trim tag = tag) (parseTags (Some t)).
Proof.
  split; [reflexivity|]. split; [reflexivity|]. split.
  - intros Hne. destruct t as [|c r]; [congruence|].
    change (parseTags (Some (c :: r))) with (map trim (split comma (c :: r))).
    rewrite length_map. apply split_length.
  - destruct t as [|c r]; [constructor|].
    change (parseTags (Some (c :: r))) with (map trim (split comma (c :: r))).
    apply Forall_forall. intros tag Hin.
    apply in_map_iff in Hin. destruct Hin as [x [<- _]].
    apply trim_idempotent.
Qed.

Lemma parseTags_pieces_witness :
  parseTags (tags hablarTagged) = [(lit "verb"); []; (lit "a1")]
  /\ length (parseTags (tags hablarTagged)) = 3%nat.
Proof.
  destruct (parseTags_pieces (lit " verb ,, a1")) as [_ [_ [Hlen _]]].
  split; [reflexivity|]. apply Hlen. discriminate.
Defined.

Lemma trimEnd_last (s : text) :
  forall pre c, trimEnd s = (pre ++ [c]) -> isWhiteSpace c = false.
Proof.
  induction s as [|a r IH]; intros pre c H.
  - destruct pre; discriminate H.
  - rewrite trimEnd_cons in H.
    destruct (isWhiteSpace a && isEmpty (trimEnd r)) eqn:E.
    + destruct pre; discriminate H.
    + destruct pre as [|a' pre']; cbn in H.
      * injection H as -> Hr. rewrite Hr in E. cbn in E.
        now rewrite andb_true_r in E.
      * injection H as _ Hr. exact (IH pre' c Hr).
Qed.

(** X17.  A field never begins or ends with white space: the result of
    [markdownToAnkiHtml] is its own trim, its first character and its last
    character are not white space. *)
Theorem field_is_trimmed (md_render : text -> text) (markdown : text) :
  let field := markdownToAnkiHtml md_render markdown in
  trim field = field
  /\ (forall c r, field = (c :: r) -> isWhiteSpace c = false)
  /\ (forall pre c, field = (pre ++ [c]) -> isWhiteSpace c = false).
Proof.
  cbv zeta. split; [apply markdownToAnkiHtml_trimmed|]. split.
  - apply trim_head.
  - unfold markdownToAnkiHtml, trim. apply trimEnd_last.
Qed.

Lemma replaceClosing_closed_bare (y : text) :
  replaceClosing (y ++ lit "</p>") = y.
Proof.
  induction y as [|c r IH]; [reflexivity|].
  rewrite replaceClosing_unfold.
  assert (E1 : eqb ((c :: r) ++ lit "</p>") (lit "</p>" ++ LF) = false).
  { apply text_eqb_neq. intros H.
    destruct r as [|c1 r']; [cbn in H; discriminate H|].
    apply (f_equal (@length N)) in H.
    rewrite !length_app in H. cbn in H. lia. }
  rewrite E1, (longer_differs ((c :: r) ++ lit "</p>") (lit "</p>")).
  - cbn [orb app]. now rewrite IH.
  - rewrite !length_app. cbn. lia.
Qed.

(** X18.  Only the outermost wrapper goes: when the rendering is [<p>],
    a body, [</p>] and at most one line feed, the field is the trimmed
    body, whatever the body holds, inner paragraph tags included. *)
Theorem only_outer_paragraph_is_stripped (md_render : text -> text)
    (markdown body : text) :
  md_render markdown = (lit "<p>" ++ body ++ lit "</p>" ++ LF)
  \/ md_render markdown = (lit "<p>" ++ body ++ lit "</p>") ->
  markdownToAnkiHtml md_render markdown = trim body.
Proof.
  unfold markdownToAnkiHtml. intros [H | H]; rewrite H.
  - now rewrite replaceWrapping_paragraph.
  - cbn. now rewrite replaceClosing_closed_bare.
Qed.

Lemma only_outer_paragraph_is_stripped_witness :
  markdownToAnkiHtml twoParagraphs (lit "hablar")
  = (lit "hablar</p>" ++ LF ++ lit "<p>hablar").
Proof.
  rewrite (only_outer_paragraph_is_stripped twoParagraphs (lit "hablar")
             (lit "hablar</p>" ++ LF ++ lit "<p>hablar")).
  - reflexivity.
  - left. reflexivity.
Defined.

Lemma replaceClosing_kept (s : text) :
  (forall pre, s <> pre ++ lit "</p>"
               /\ s <> pre ++ lit "</p>" ++ LF) ->
  replaceClosing s = s.
Proof.
  induction s as [|c r IH]; intros H; [reflexivity|].
  rewrite replaceClosing_unfold.
  assert (H1 : eqb (c :: r) (lit "</p>") = false)
    by (apply text_eqb_neq; exact (proj1 (H []))).
  assert (H2 : eqb (c :: r) (lit "</p>" ++ LF) = false)
    by (apply text_eqb_neq; exact (proj2 (H []))).
  rewrite H1, H2. cbn [orb]. f_equal. apply IH.
  intros pre. destruct (H (c :: pre)) as [H3 H4].
  split; intros Heq; [apply H3 | apply H4]; rewrite Heq; reflexivity.
Qed.

Lemma afterPrefix_some (p s r : text) :
  afterPrefix p s = Some r -> s = p ++ r.
Proof.
  revert s. induction p as [|a p IH]; intros s H; cbn in H.
  - now injection H as ->.
  - destruct s as [|b s]; [discriminate H|].
    destruct (N.eqb_spec a b) as [->|]; [|discriminate H].
    cbn. f_equal. now apply IH.
Qed.

Lemma replaceWrapping_cases (html : text) :
  (exists r, html = lit "<p>" ++ r)
  \/ replaceWrapping html = replaceClosing html.
Proof.
  unfold replaceWrapping.
  destruct (afterPrefix (lit "<p>") html) as [r|] eqn:E.
  - left. exists r. now apply afterPrefix_some.
  - right. reflexivity.
Qed.

(** X19.  A rendering that does not begin with [<p>] and does not end
    with [</p>], with or without a final line feed, is only trimmed: the
    rendering of a list keeps all its tags. *)
Theorem unwrapped_rendering_is_only_trimmed (md_render : text -> text)
    (markdown : text) :
  (forall r, md_render markdown <> (lit "<p>" ++ r)) ->
  (forall pre, md_render markdown <> (pre ++ lit "</p>")
               /\ md_render markdown <> (pre ++ lit "</p>" ++ LF)) ->
  markdownToAnkiHtml md_render markdown = trim (md_render markdown).
Proof.
  intros Hopen Hclose. unfold markdownToAnkiHtml. f_equal.
  destruct (replaceWrapping_cases (md_render markdown)) as [[r Hr] | ->].
  - exfalso. exact (Hopen r Hr).
  - apply replaceClosing_kept. exact Hclose.
Qed.

Lemma list_has_no_closing_paragraph (pre : text) :
  (oneItemList (lit "hablar") <> (pre ++ lit "</p>"))
  /\ (oneItemList (lit "hablar") <> (pre ++ lit "</p>" ++ LF)).
Proof.
  unfold oneItemList.
  split; intros H; cbn in H;
    repeat (destruct pre as [|? pre];
            [discriminate H | cbn in H; injection H as _ H]);
    destruct pre; discriminate H.
Qed.

Lemma unwrapped_rendering_is_only_trimmed_witness :
  markdownToAnkiHtml oneItemList (lit "hablar")
  = (lit "<ul>" ++ LF ++ lit "<li>hablar</li>" ++ LF ++ lit "</ul>").
Proof.
  rewrite (unwrapped_rendering_is_only_trimmed oneItemList (lit "hablar")).
  - reflexivity.
  - intros r H. cbn in H. discriminate H.
  - apply list_has_no_closing_paragraph.
Defined.

End ToolLaws.

(** ** The confirmation prompt *)

Module PromptLaws.
Import Js Effect AnkiConnect AddCard Workflow Scenario Terms Prompt.
Import AddCardFacts.

(** X20.  The prompt is built without any request and without touching
    LocalStorage.  Its rows show the front and the back as they were
    submitted, not their rendering, and a Tags row, the tags joined by a
    comma and a space, exactly when there is a tag. *)
Theorem confirmation_shows_the_submission (toText : Js.value -> text)
    (input : Input) (w : World) :
  exists info,
    confirmation toText input w = (inr (lit "Create this card in Anki?", info), w)
    /\ row (lit "Front") info = Some (Front input)
    /\ row (lit "Back") info = Some (Back input)
    /\ (row (lit "Tags") info = None <-> parseTags (tags input) = [])
    /\ (parseTags (tags input) <> [] ->
        row (lit "Tags") info = Some (join (lit ", ") (parseTags (tags input)))).
Proof.
  unfold confirmation, bind, getDeckConfigurations, ret. cbv zeta.
  eexists. split; [reflexivity|].
  destruct (parseTags (tags input)) as [|t ts]; cbn.
  - repeat split; congruence.
  - repeat split; intros; congruence.
Qed.

(** X21.  For an input whose deck id a stored preset carries, the Deck and
    Note Type rows of the prompt are the deck name and the note type of
    every create request the tool then sends for that input. *)
Theorem confirmation_agrees_with_tool (toText : Js.value -> text)
    (md_render : text -> text) (peer : Peer) (input : Input)
    (ls : Storage.LocalStorage) (c : Storage.DeckConfiguration) :
  resolves ls input c ->
  exists message info,
    fst (confirmation toText input (start ls)) = inr (message, info)
    /\ row (lit "Deck") info = Some (Storage.deckName c)
    /\ row (lit "Note Type") info
       = Some (Storage.noteTypeName (Storage.noteType c))
    /\ forall note,
         In (AddNote note) (requests md_render peer input ls) ->
         row (lit "Deck") info = Some (note_deckName note)
         /\ row (lit "Note Type") info = Some (note_modelName note).
Proof.
  intros Hres. unfold confirmation, bind, getDeckConfigurations, ret.
  cbv zeta. cbn [start localStorage fst].
  unfold resolves in Hres. rewrite Hres.
  do 2 eexists. split; [reflexivity|].
  assert (Hrows : forall tail,
    row (lit "Deck") ([(lit "Deck", Storage.deckName c);
                 (lit "Note Type", Storage.noteTypeName (Storage.noteType c));
                 (lit "Front", Front input); (lit "Back", Back input)] ++ tail)
    = Some (Storage.deckName c)
    /\ row (lit "Note Type")
           ([(lit "Deck", Storage.deckName c);
             (lit "Note Type", Storage.noteTypeName (Storage.noteType c));
             (lit "Front", Front input); (lit "Back", Back input)] ++ tail)
       = Some (Storage.noteTypeName (Storage.noteType c))).
  { intros tail. split; reflexivity. }
  assert (Hinfo : forall info,
    (info = [(lit "Deck", Storage.deckName c);
             (lit "Note Type", Storage.noteTypeName (Storage.noteType c));
             (lit "Front", Front input); (lit "Back", Back input)]
     \/ exists tail,
          info = [(lit "Deck", Storage.deckName c);
                  (lit "Note Type", Storage.noteTypeName (Storage.noteType c));
                  (lit "Front", Front input); (lit "Back", Back input)] ++ tail) ->
    row (lit "Deck") info = Some (Storage.deckName c)
    /\ row (lit "Note Type") info
       = Some (Storage.noteTypeName (Storage.noteType c))).
  { intros info [-> | [tail ->]]; [split; reflexivity | apply Hrows]. }
  match goal with
  | |- row (lit "Deck") ?i = _ /\ _ =>
      assert (Hi : row (lit "Deck") i = Some (Storage.deckName c)
                   /\ row (lit "Note Type") i
                      = Some (Storage.noteTypeName (Storage.noteType c)))
  end.
  { apply Hinfo. destruct (0 <? length (parseTags (tags input)))%nat;
      [right; eexists; reflexivity | left; reflexivity]. }
  destruct Hi as [Hdeck Htype]. split; [exact Hdeck|]. split; [exact Htype|].
  intros note Hin. rewrite Hdeck, Htype.
  destruct (tool_requests_cases md_render peer input ls)
    as [[Hr _] | [[Hr _] | [c' [Hres' [[ids [infos [Hr _]]] | [[Hr _] | [ids [Hr _]]]]]]]];
    rewrite Hr in Hin; cbn in Hin;
    repeat (destruct Hin as [Hin | Hin]; try discriminate Hin);
    try contradiction;
    injection Hin as <-;
    unfold resolves in Hres'; rewrite Hres in Hres'; injection Hres' as <-;
    split; reflexivity.
Qed.

Lemma confirmation_agrees_with_tool_witness :
  exists message info,
    fst (confirmation (fun _ => (lit "1")) hablar (start configured))
    = inr (message, info)
    /\ row (lit "Deck") info = Some (lit "Spanish::Vocab")
    /\ row (lit "Note Type") info = Some (lit "Basic").
Proof.
  destruct (confirmation_agrees_with_tool (fun _ => (lit "1")) plainParagraph
              emptyCollection hablar configured spanishVocab eq_refl)
    as [message [info [H [Hd [Ht _]]]]].
  exists message, info. auto.
Defined.

(** X22.  The prompt does not check the deck: for a deck id that no stored
    preset carries it is still built, with the rows [Deck ID <id>] and
    [Unknown]; the tool then sends no create request for that input. *)
Theorem confirmation_of_unknown_deck (toText : Js.value -> text)
    (md_render : text -> text) (peer : Peer) (input : Input)
    (ls : Storage.LocalStorage) :
  unconfigured ls input ->
  (exists message info,
      fst (confirmation toText input (start ls)) = inr (message, info)
      /\ row (lit "Deck") info = Some (lit "Deck ID " ++ toText (deckId input))
      /\ row (lit "Note Type") info = Some (lit "Unknown"))
  /\ Forall (fun a => isWrite a = false) (requests md_render peer input ls).
Proof.
  intros Hun. split.
  - unfold confirmation, bind, getDeckConfigurations, ret.
    cbv zeta. cbn [start localStorage fst].
    destruct (find _ (Storage.getDeckConfigurations ls)) as [c|] eqn:Hfind.
    + exfalso. exact (unconfigured_not_resolved input ls c Hun Hfind).
    + do 2 eexists. split; [reflexivity|].
      destruct (0 <? length (parseTags (tags input)))%nat; split; reflexivity.
  - destruct (tool_requests_cases md_render peer input ls)
      as [[-> _] | [[-> _] | [c [Hres _]]]].
    + constructor.
    + repeat constructor.
    + exfalso. exact (unconfigured_not_resolved input ls c Hun Hres).
Qed.

Lemma confirmation_of_unknown_deck_witness :
  exists message info,
    fst (confirmation (fun _ => (lit "2")) hablarElsewhere (start configured))
    = inr (message, info)
    /\ row (lit "Deck") info = Some (lit "Deck ID 2")
    /\ row (lit "Note Type") info = Some (lit "Unknown").
Proof.
  destruct (confirmation_of_unknown_deck (fun _ => (lit "2")) plainParagraph
              emptyCollection hablarElsewhere configured)
    as [H _].
  - intros c [<- | []]. reflexivity.
  - exact H.
Defined.

End PromptLaws.

(** ** The discovery tool *)

Module DiscoveryLaws.
Import Js Effect AnkiConnect AddCard Workflow Scenario Terms Discovery.

Lemma listed_entries (l : list Storage.DeckConfiguration) :
  flat_map deckIdOf (map deckEntry l) = map Storage.deckId l.
Proof.
  induction l as [|c l IH]; [reflexivity|].
  cbn [map flat_map]. rewrite IH. reflexivity.
Qed.

Lemma tool_run (w : World) :
  Discovery.tool w
  = (inr (match Storage.getDeckConfigurations (localStorage w) with
          | [] =>
              JObject
                [((lit "error"),
                  JString (lit "No deck configurations found. Please ask the user to run the 'Configure Anki Decks' command to set up their decks first."))]
          | _ :: _ =>
              JObject
                [((lit "decks"),
                  JArray (map deckEntry
                              (Storage.getDeckConfigurations (localStorage w))));
                 ((lit "instructions"),
                  JString (lit "Select the appropriate deck ID based on the user's content and the deck's purpose. Use the templates and examples as guidelines for formatting card fields."))]
          end), w).
Proof.
  unfold Discovery.tool, bind, getDeckConfigurations, ret.
  destruct (Storage.getDeckConfigurations (localStorage w)); reflexivity.
Qed.

(** X23.  The discovery tool sends no request and leaves LocalStorage
    alone.  Its answer is the error object exactly when no preset is
    stored; otherwise it lists the deck ids of the stored presets, all of
    them and in their order. *)
Theorem discovery_lists_the_store (w : World) :
  exists answer,
    Discovery.tool w = (inr answer, w)
    /\ (isError answer = true
        <-> Storage.getDeckConfigurations (localStorage w) = [])
    /\ listedDeckIds answer
       = map Storage.deckId (Storage.getDeckConfigurations (localStorage w)).
Proof.
  rewrite tool_run. eexists. split; [reflexivity|].
  destruct (Storage.getDeckConfigurations (localStorage w)) as [|c l] eqn:E.
  - repeat split; reflexivity.
  - split; [split; discriminate|].
    change (listedDeckIds (JObject _))
      with (flat_map deckIdOf (map deckEntry (c :: l))).
    apply listed_entries.
Qed.

Lemma listed_ids (ls : Storage.LocalStorage) (answer : json) :
  fst (Discovery.tool (start ls)) = inr answer ->
  listedDeckIds answer = map Storage.deckId (Storage.getDeckConfigurations ls).
Proof.
  rewrite tool_run. cbn [fst start localStorage]. intros H.
  injection H as <-.
  destruct (Storage.getDeckConfigurations ls) as [|c l]; [reflexivity|].
  change (listedDeckIds (JObject _))
    with (flat_map deckIdOf (map deckEntry (c :: l))).
  apply listed_entries.
Qed.

(** X24.  The add-card tool finds a preset for exactly the deck ids the
    discovery tool lists: the lookup of [tool] succeeds if and only if
    the requested deck id is a number equal to a listed id. *)
Theorem listed_ids_are_the_accepted_ids (input : Input)
    (ls : Storage.LocalStorage) (answer : json) :
  fst (Discovery.tool (start ls)) = inr answer ->
  ((exists c, resolves ls input c)
   <-> exists n m,
         In n (listedDeckIds answer)
         /\ deckId input = Number m
         /\ strictEq n m = true).
Proof.
  intros Hanswer. rewrite (listed_ids ls answer Hanswer). unfold resolves.
  split.
  - intros [c Hfind]. apply find_some in Hfind. destruct Hfind as [Hin Heq].
    destruct (deckId input) as [| |b|m|t|]; try discriminate Heq.
    exists (Storage.deckId c), m. split; [|split; [reflexivity | exact Heq]].
    now apply in_map.
  - intros [n [m [Hin [Hid Heq]]]].
    apply in_map_iff in Hin. destruct Hin as [c [<- Hin]].
    destruct (find (fun c' => strictEqValue (Storage.deckId c') (deckId input))
                   (Storage.getDeckConfigurations ls)) as [c'|] eqn:Hfind.
    + now exists c'.
    + exfalso. pose proof (find_none _ _ Hfind c Hin) as Hnone.
      cbn in Hnone. rewrite Hid in Hnone. cbn in Hnone. congruence.
Qed.

Lemma listed_ids_are_the_accepted_ids_witness :
  exists c, resolves configured hablar c.
Proof.
  apply (listed_ids_are_the_accepted_ids hablar configured
           (match fst (Discovery.tool (start configured)) with
            | inr answer => answer
            | inl _ => JArray []
            end) eq_refl).
  exists 1, 1. split; [left; reflexivity|]. split; reflexivity.
Defined.

End DiscoveryLaws.

(** ** The forms of the configuration command *)

Module FormLaws.
Import Js Terms ConfigureDecks Storage.
Import StorageFacts StorageLaws.

Lemma invariant_add (configuration : DeckConfiguration) (ls : LocalStorage) :
  invariant ls -> invariant (addDeckConfiguration configuration ls).
Proof.
  intros Hinv id'. unfold presetsOf, addDeckConfiguration. cbn.
  rewrite filter_app, length_app. cbn.
  destruct (strictEq (deckId configuration) id') eqn:E; cbn.
  - rewrite (filter_other_empty _ _ _ E). cbn. lia.
  - pose proof (filter_filter_length
                  (fun c => strictEq (deckId c) id')
                  (fun c => negb (strictEq (deckId c) (deckId configuration)))
                  (getDeckConfigurations ls)) as H.
    specialize (Hinv id'). unfold presetsOf in Hinv. lia.
Qed.

Lemma invariant_remove (id : number) (ls : LocalStorage) :
  invariant ls -> invariant (removeDeckConfiguration id ls).
Proof.
  intros Hinv id'. unfold presetsOf, removeDeckConfiguration. cbn.
  pose proof (filter_filter_length
                (fun c => strictEq (deckId c) id')
                (fun c => negb (strictEq (deckId c) id))
                (getDeckConfigurations ls)) as H.
  specialize (Hinv id'). unfold presetsOf in Hinv. lia.
Qed.

Lemma existsb_ids (i : number) (l : list DeckConfiguration) :
  existsb (fun j => strictEq j i) (map deckId l)
  = existsb (fun c => strictEq (deckId c) i) l.
Proof.
  induction l as [|c l IH]; cbn; [reflexivity | now rewrite IH].
Qed.

Lemma existsb_same_test {A : Type} (p q : A -> bool) (l : list A) :
  (forall x, p x = q x) -> existsb p l = existsb q l.
Proof.
  intros H. induction l as [|x l IH]; cbn; [reflexivity | now rewrite H, IH].
Qed.

(** X25.  The add form offers exactly the decks of Anki that have no
    preset; the edit form offers those and the deck being edited. *)
Theorem offered_decks (decks : list Decks.DeckInfo) (ls : LocalStorage)
    (configuration : DeckConfiguration) (d : Decks.DeckInfo) :
  (In d (availableDecks decks (existingForAdd ls))
   <-> In d decks /\ isDeckConfigured (Decks.id d) ls = false)
  /\ (In d (availableDecks decks (existingForEdit configuration ls))
      <-> In d decks
          /\ (isDeckConfigured (Decks.id d) ls = false
              \/ strictEq (deckId configuration) (Decks.id d) = true)).
Proof.
  unfold availableDecks, existingForAdd, existingForEdit, isDeckConfigured.
  rewrite !filter_In, !existsb_ids, !negb_true_iff. split; [tauto|].
  destruct (strictEq (deckId configuration) (Decks.id d)) eqn:E.
  - rewrite (existsb_same_test
               (fun c => strictEq (deckId c) (Decks.id d))
               (fun c => strictEq (deckId c) (deckId configuration))).
    + rewrite existsb_same. tauto.
    + intros c. symmetry. now apply strictEq_congr.
  - rewrite (existsb_other _ _ _ E). intuition congruence.
Qed.




Lemma filled (t : text) :
  isEmpty (trim t) = false ->
  trim t <> [] /\ trim (trim t) = trim t.
Proof.
  intros H. split; [|apply JsFacts.trim_idempotent].
  intros E. rewrite E in H. discriminate H.
Qed.

(** X27.  A successful submission of the add form stores, by
    [addDeckConfiguration], a preset for a deck of Anki whose id is the
    number read from the form; the preset carries the id and the name
    Anki gives for that deck, and its texts are the trimmed texts of the
    form, none of them empty. *)
Theorem add_form_stores_a_filled_preset
    (parseInt10 : text -> option number) (addFault : option Effect.Error)
    (decks : list Decks.DeckInfo) (values : FormValues) (ls : LocalStorage) :
  fst (handleSubmitAdd parseInt10 addFault decks values ls)
  = ConfigurationAdded ->
  exists deck t n,
    In deck decks
    /\ parseInt10 (ConfigureDecks.deckId values) = Some n
    /\ strictEq (Decks.id deck) n = true
    /\ snd (handleSubmitAdd parseInt10 addFault decks values ls)
       = addDeckConfiguration (presetOf deck t values) ls
    /\ deckId (presetOf deck t values) = Decks.id deck
    /\ deckName (presetOf deck t values) = Decks.name deck
    /\ filledIn (presetOf deck t values).
Proof.
  unfold handleSubmitAdd, attempt.
  destruct (incomplete values) eqn:Hc; [discriminate|]. cbv zeta.
  destruct (findDeck decks _) as [deck|] eqn:Hfind; [|discriminate].
  destruct (ConfigureDecks.noteType values) as [t|] eqn:Ht; [|discriminate].
  destruct addFault; [discriminate|].
  intros _. unfold findDeck in Hfind. apply find_some in Hfind.
  destruct Hfind as [Hin Heq].
  destruct (parseInt10 (ConfigureDecks.deckId values)) as [n|];
    [|discriminate Heq].
  exists deck, t, n. repeat split; auto.
  unfold incomplete in Hc. rewrite Ht in Hc.
  repeat (apply orb_false_iff in Hc; destruct Hc as [Hc ?]).
  unfold filledIn, presetOf. cbn.
  repeat constructor; try (now apply filled); apply JsFacts.trim_idempotent.
Qed.

Lemma add_form_stores_a_filled_preset_witness :
  getDeckConfigurations
    (snd (handleSubmitAdd readId None ankiDecks grammarForm Scenario.configured))
  = [Scenario.spanishVocab;
     mkDeckConfiguration 2 (lit "Spanish::Grammar") (lit "Spanish grammar") Basic
       (lit "rule") (lit "explanation") (lit "ser / estar") (lit "to be")].
Proof.
  destruct (add_form_stores_a_filled_preset readId None ankiDecks grammarForm
              Scenario.configured eq_refl)
    as [deck [t [n [_ [_ [_ [Hsnd _]]]]]]].
  reflexivity.
Defined.


Lemma configured_remove_other (id i : number) (ls : LocalStorage) :
  strictEq id i = false ->
  isDeckConfigured i (removeDeckConfiguration id ls) = isDeckConfigured i ls.
Proof.
  intros Hne. unfold isDeckConfigured, removeDeckConfiguration. cbn.
  now apply existsb_other.
Qed.

Lemma configured_remove_same (id : number) (ls : LocalStorage) :
  isDeckConfigured id (removeDeckConfiguration id ls) = false.
Proof.
  unfold isDeckConfigured, removeDeckConfiguration. cbn. apply existsb_same.
Qed.




(** X29.  Whatever is submitted or removed through the command, and
    whichever call of the storage fails, a store with at most one preset
    per deck stays so. *)
Theorem command_keeps_one_preset_per_deck
    (parseInt10 : text -> option number)
    (removeFault addFault : option Effect.Error)
    (configuration : DeckConfiguration)
    (decks : list Decks.DeckInfo) (values : FormValues) (ls : LocalStorage)
    (confirmed : bool) (id : number) :
  invariant ls ->
  invariant (snd (handleSubmitAdd parseInt10 addFault decks values ls))
  /\ invariant (snd (handleSubmitEdit parseInt10 removeFault addFault
                                      configuration decks values ls))
  /\ invariant (handleRemoveConfiguration confirmed removeFault id ls).
Proof.
  intros Hinv. unfold handleSubmitAdd, handleSubmitEdit,
    handleRemoveConfiguration, attempt.
  split; [|split].
  - destruct (incomplete values); [exact Hinv|]. cbv zeta.
    destruct (findDeck decks _) as [deck|]; [|exact Hinv].
    destruct (ConfigureDecks.noteType values); [|exact Hinv].
    destruct addFault; [exact Hinv|]. now apply invariant_add.
  - destruct (incomplete values); [exact Hinv|]. cbv zeta.
    destruct (findDeck decks _) as [deck|]; [|exact Hinv].
    destruct (ConfigureDecks.noteType values); [|exact Hinv].
    destruct (match parseInt10 (ConfigureDecks.deckId values) with
              | Some n => negb (strictEq n (deckId configuration))
              | None => true
              end), removeFault, addFault; cbn [snd];
      try exact Hinv;
      try (apply invariant_add; try apply invariant_remove; exact Hinv);
      try (apply invariant_remove; exact Hinv).
  - destruct confirmed, removeFault; try exact Hinv.
    now apply invariant_remove.
Qed.

Lemma command_keeps_one_preset_per_deck_witness :
  invariant (snd (handleSubmitAdd readId None ankiDecks grammarForm None)).
Proof.
  destruct (command_keeps_one_preset_per_deck readId None None
              Scenario.spanishVocab ankiDecks grammarForm None true 1)
    as [H _].
  - intros id. cbn. lia.
  - exact H.
Defined.

(** X30.  The edit form is not atomic: when the chosen deck is not the
    deck being edited, the removal of the old preset goes through and
    [addDeckConfiguration] then throws, the form ends with the failure
    toast carrying that error, the old preset is gone and the chosen deck
    has got no new preset. *)
Theorem failed_edit_loses_the_old_preset
    (parseInt10 : text -> option number) (e : Effect.Error)
    (configuration : DeckConfiguration)
    (decks : list Decks.DeckInfo) (values : FormValues) (ls : LocalStorage)
    (deck : Decks.DeckInfo) (n : number) :
  incomplete values = false ->
  parseInt10 (ConfigureDecks.deckId values) = Some n ->
  findDeck decks (Some n) = Some deck ->
  strictEq n (deckId configuration) = false ->
  handleSubmitEdit parseInt10 None (Some e) configuration decks values ls
  = (FailedToUpdate e, removeDeckConfiguration (deckId configuration) ls)
  /\ isDeckConfigured (deckId configuration)
       (removeDeckConfiguration (deckId configuration) ls) = false
  /\ isDeckConfigured n (removeDeckConfiguration (deckId configuration) ls)
     = isDeckConfigured n ls.
Proof.
  intros Hc Hn Hfind Hne. unfold handleSubmitEdit, attempt.
  rewrite Hc, Hn, Hfind, Hne. cbv zeta. cbn [negb].
  unfold incomplete in Hc.
  destruct (ConfigureDecks.noteType values) as [t|].
  - split; [reflexivity|]. split; [apply configured_remove_same|].
    apply configured_remove_other. rewrite strictEq_sym. exact Hne.
  - cbn in Hc. rewrite !orb_true_r in Hc. discriminate Hc.
Qed.

Lemma failed_edit_loses_the_old_preset_witness :
  handleSubmitEdit readId None (Some (lit "quota exceeded"))
                   Scenario.spanishVocab ankiDecks grammarForm
                   Scenario.configured
  = (FailedToUpdate (lit "quota exceeded"), Some []).
Proof.
  exact (proj1 (failed_edit_loses_the_old_preset readId (lit "quota exceeded")
                  Scenario.spanishVocab ankiDecks grammarForm Scenario.configured
                  (Decks.mkDeckInfo (lit "Spanish::Grammar") 2) 2
                  eq_refl eq_refl eq_refl eq_refl)).
Defined.

End FormLaws.
